(** * ShopSmart backend: order placement, stock ledger and order status

    A shallow embedding of the order routes of the ShopSmart backend, of
    the Mongoose schemas they use, and of the cart routes and middleware
    around them.

    - [OrderRoutes] embeds the revision of [routes/orderRoutes.js] that
      checks the shipping address, clears the cart and restocks on
      cancellation (the second document of [src/unnamed/part_002]).
    - [BackendOrderRoutes] embeds [src/backend/routes/orderRoutes.js]
      (its first document), the revision without these three.

    Conventions of the embedding.
    - Mongo [ObjectId]s are numbers ([N]); only well-formed ids are modelled,
      so [findById] either finds a document or yields [null].
    - A string is the sequence of the bytes of its UTF-8 encoding.
    - JavaScript numbers are IEEE 754 doubles.  Prices and order totals
      are doubles ([Js.number], the binary64 instance of the Standard
      Library's [SpecFloat]).  Stock and quantity are the integers the
      requests and documents carry ([Z]); the arithmetic of the routes on
      them is exact as long as they stay below 2^53 in magnitude
      ([Double.reserve] and [Double.restock] are the two stock mutations
      on arbitrary doubles, and agree with [reserve] and [restock] on such
      integers).
    - The database is passed explicitly ([Db]); a handler returns the
      database it leaves behind together with its HTTP response.
    - Storage failures of the driver itself are not modelled; the only
      exception a [save] raises is a schema validation error. *)

From Stdlib Require Import ZArith Lia.
From Stdlib Require Import Floats.SpecFloat.
From stdpp Require Import gmap strings list fin_maps relations.

Local Open Scope Z_scope.

Abbreviation ObjectId := N (only parsing).

(** ** JavaScript numbers *)

Module Js.

(** The binary64 format: 53 bits of precision, exponents below 1024. *)
Definition prec : Z := 53.
Definition emax : Z := 1024.

Definition number : Type := spec_float.

Definition zero : number := S754_zero false.

(** The number an integer literal denotes: the double nearest to it. *)
Definition ofZ (z : Z) : number := binary_normalize prec emax z 0 false.

Definition add : number → number → number := SFadd prec emax.
Definition sub : number → number → number := SFsub prec emax.
Definition mul : number → number → number := SFmul prec emax.
Definition div : number → number → number := SFdiv prec emax.

(** [x < y], [x <= y] and [x === y]; all are false when an operand is
    [NaN]. *)
Definition ltb : number → number → bool := SFltb.
Definition leb : number → number → bool := SFleb.
Definition eqb : number → number → bool := SFeqb.

Definition isNaN (x : number) : bool :=
  match x with S754_nan => true | _ => false end.

(** The number a decimal literal [n / d] denotes, its numerator and
    denominator below 2^53: the double nearest to the quotient. *)
Definition decimal (n d : Z) : number := div (ofZ n) (ofZ d).

(** [Number(text)] for the text of [n] hundredths (["1.06"] for 106),
    with a minus sign in front when [s] is set: the double nearest to
    [n / 100], and a zero that keeps the sign. *)
Definition hundredths (s : bool) (n : Z) : number :=
  match n with
  | Zpos p => SFdiv prec emax (S754_finite s p 0) (S754_finite false 100 0)
  | _ => S754_zero s
  end.

(** [Number.prototype.toFixed(2)] read back as a number, as the cast of
    a [Number] path does with the string ([totalAmount.toFixed(2)]).
    [toFixed] takes the exact value [num / den] of the double, without
    its sign, and picks the integer [n] with [n / 100] nearest to it, the
    larger one on a tie; from 10^21 on, and for an infinity, it gives the
    text of the number itself.  The text of [NaN] is refused by the cast;
    [NaN] stands for that here, and validation fails on it. *)
Definition toFixed2 (x : number) : number :=
  match x with
  | S754_finite s m e =>
      let num := Zpos m * 2 ^ Z.max e 0 in
      let den := 2 ^ Z.max (- e) 0 in
      if 10 ^ 21 * den <=? num then x
      else hundredths s ((200 * num + den) / (2 * den))
  | S754_zero _ => S754_zero false
  | S754_infinity _ => x
  | S754_nan => S754_nan
  end.

(** The safe integers: those of magnitude below 2^53. *)
Definition safe (z : Z) : Prop := - 2 ^ 53 < z < 2 ^ 53.

(** The double of a safe integer, written out: [p] is the magnitude,
    [digits p] the number of its bits, and the mantissa is [p] followed
    by as many zero bits as make 53. *)
Definition shl (p : positive) (k : nat) : positive := Nat.iter k xO p.

Definition digits (p : positive) : Z := Zpos (digits2_pos p).

Definition normal (s : bool) (p : positive) : number :=
  S754_finite s (shl p (Z.to_nat (53 - digits p))) (digits p - 53).

Definition signed (s : bool) (p : positive) : Z := cond_Zopp s (Zpos p).

End Js.

(** ** Schemas *)

Module Product.
(** Modelled from the spec: the Product schema with stock tracking is not
    among the sources ([models/Product.js] in [src/unnamed/part_000] has
    no [stock] field); the routes read and write [product.stock], and the
    data model of the spec gives a product a name, a unit price and an
    integer stock. *)
Record t := mk {
  name : string;
  price : Js.number;
  image : string;
  stock : Z
}.

Definition setStock (product : t) (s : Z) : t :=
  {| name := name product; price := price product;
     image := image product; stock := s |}.
End Product.

Module CartItem.
(** An element of [req.body.cartItems] whose quantity is an integer.  (What
    the stock check and the decrement do with any other number is in
    [Double].) *)
Record t := mk { productId : ObjectId; quantity : Z }.
End CartItem.

Module User.
(** Modelled from the spec: the [cart] path of the User schema is not
    among the sources ([src/backend/models/User.js] declares none); the
    placement of [part_002] assigns [user.cart = []] and saves the user
    (lines 139-141), the Order Builder of the spec "instructs the cart
    subsystem to clear the owner's cart", and its design notes describe
    the cart as an "embedded array on the user record".  Of the paths
    that [models/User.js] declares, the order routes read [address]. *)
Record t := mk { address : string; cart : list CartItem.t }.

Definition clearCart (user : t) : t :=
  {| address := address user; cart := [] |}.
End User.

Module OrderItem.
(** [orderSchema.items], [models/Order.js] lines 11-37. *)
Record t := mk {
  productId : ObjectId;
  name : string;
  quantity : Z;
  price : Js.number;
  image : string
}.
End OrderItem.

Module Order.
(** [orderSchema], [models/Order.js] lines 3-62. *)
Record t := mk {
  userId : ObjectId;
  items : list OrderItem.t;
  totalAmount : Js.number;
  paymentMethod : string;
  shippingAddress : string;
  status : string
}.

Definition setStatus (order : t) (s : string) : t :=
  {| userId := userId order; items := items order;
     totalAmount := totalAmount order;
     paymentMethod := paymentMethod order;
     shippingAddress := shippingAddress order; status := s |}.
End Order.

(** The collections.  Orders are never deleted, so the collection is an
    append-only list and an order's id is its position in it. *)
Record Db := mkDb {
  products : gmap N Product.t;
  orders : list Order.t;
  users : gmap N User.t
}.

Definition withProducts (db : Db) (ps : gmap N Product.t) : Db :=
  {| products := ps; orders := orders db; users := users db |}.

(** ** Responses *)

Inductive Body :=
| UserNotFound
| MissingShippingAddress
| EmptyCart
| ProductNotFound (productId : ObjectId)
| InsufficientStock (name : string) (available : Z)
| ServerError
| OrderPlaced (order : Order.t)
| OrderNotFound
| InvalidStatus
| InvalidTransition
| StatusUpdated (order : Order.t).

Record Response := mkResponse { code : Z; body : Body }.

(** ** JavaScript and Mongoose helpers *)

(** The white space and line terminators of ECMAScript, in UTF-8:
    U+0009 to U+000D and U+0020 in one byte; U+00A0 in two; U+1680,
    U+2000 to U+200A, U+2028, U+2029, U+202F, U+205F, U+3000 and U+FEFF
    in three. *)
Definition whiteSpace1 (a : N) : bool :=
  ((9 <=? a) && (a <=? 13) || (a =? 32))%N.

Definition whiteSpace2 (a b : N) : bool := ((a =? 194) && (b =? 160))%N.

Definition whiteSpace3 (a b c : N) : bool :=
  ((a =? 225) && (b =? 154) && (c =? 128)
   || (a =? 226) && (b =? 128)
      && ((128 <=? c) && (c <=? 138) || (c =? 168) || (c =? 169) || (c =? 175))
   || (a =? 226) && (b =? 129) && (c =? 159)
   || (a =? 227) && (b =? 128) && (c =? 128)
   || (a =? 239) && (b =? 187) && (c =? 191))%N.

Definition byteOf (c : Ascii.ascii) : N := Ascii.N_of_ascii c.

(** [String.prototype.trimStart]. *)
Fixpoint trimStart (s : string) : string :=
  match s with
  | String a s1 =>
      if whiteSpace1 (byteOf a) then trimStart s1
      else
        match s1 with
        | String b s2 =>
            if whiteSpace2 (byteOf a) (byteOf b) then trimStart s2
            else
              match s2 with
              | String c s3 =>
                  if whiteSpace3 (byteOf a) (byteOf b) (byteOf c)
                  then trimStart s3
                  else s
              | EmptyString => s
              end
        | EmptyString => s
        end
  | EmptyString => EmptyString
  end.

(** [trimStart] on a string read from its end: the bytes of a character
    come in reverse. *)
Fixpoint trimStartReversed (s : string) : string :=
  match s with
  | String a s1 =>
      if whiteSpace1 (byteOf a) then trimStartReversed s1
      else
        match s1 with
        | String b s2 =>
            if whiteSpace2 (byteOf b) (byteOf a) then trimStartReversed s2
            else
              match s2 with
              | String c s3 =>
                  if whiteSpace3 (byteOf c) (byteOf b) (byteOf a)
                  then trimStartReversed s3
                  else s
              | EmptyString => s
              end
        | EmptyString => s
        end
  | EmptyString => EmptyString
  end.

(** [String.prototype.trim]. *)
Definition trim (s : string) : string :=
  String.rev (trimStartReversed (String.rev (trimStart s))).

(** [required: true] on a [String] path. *)
Definition requiredString (s : string) : bool := negb (String.eqb s "").

Definition validStatuses : list string :=
  ["pending"; "confirmed"; "shipped"; "delivered"; "cancelled"]%string.

(** [Array.prototype.includes] on strings. *)
Definition includes (l : list string) (s : string) : bool :=
  existsb (String.eqb s) l.

(** Validation run by [save] on an Order document ([models/Order.js]):
    [items.name] required, [items.quantity] at least 1, [items.price] and
    [totalAmount] at least 0, [paymentMethod] and [shippingAddress]
    required, [status] in the enum. *)
Definition validItem (item : OrderItem.t) : bool :=
  requiredString (OrderItem.name item)
  && (1 <=? OrderItem.quantity item)
  && Js.leb Js.zero (OrderItem.price item).

Definition validOrder (order : Order.t) : bool :=
  forallb validItem (Order.items order)
  && Js.leb Js.zero (Order.totalAmount order)
  && requiredString (Order.paymentMethod order)
  && requiredString (Order.shippingAddress order)
  && includes validStatuses (Order.status order).

(** [new Order({...})]: the schema setters trim the two string paths. *)
Definition newOrder (userId : ObjectId) (items : list OrderItem.t)
    (totalAmount : Js.number) (paymentMethod shippingAddress status : string)
  : Order.t :=
  {| Order.userId := userId; Order.items := items;
     Order.totalAmount := totalAmount;
     Order.paymentMethod := trim paymentMethod;
     Order.shippingAddress := trim shippingAddress;
     Order.status := status |}.

(** ** Stock ledger: the two stock mutations of the routes *)

Inductive ReserveError :=
| NotFound (productId : ObjectId)
| Insufficient (name : string) (available : Z).

(** Product lookup, stock check and decrement of one cart line
    ([part_002] lines 101-113, [backend/routes/orderRoutes.js] lines 44-59;
    the latter also rejects an undefined stock, which a [Product.t] never
    has).  Returns the products as the line leaves them, and either the
    error or the saved product. *)
Definition reserve (productId : ObjectId) (quantity : Z)
    (ps : gmap N Product.t) : gmap N Product.t * (ReserveError + Product.t) :=
  match ps !! productId with
  | None => (ps, inl (NotFound productId))
  | Some product =>
      if Product.stock product <? quantity
      then
        (ps, inl (Insufficient (Product.name product) (Product.stock product)))
      else
        let product' :=
          Product.setStock product (Product.stock product - quantity) in
        (<[productId := product']> ps, inr product')
  end.

(** Stock reversal of one order line ([part_002] lines 202-208): a missing
    product is skipped with a warning. *)
Definition restock (productId : ObjectId) (quantity : Z)
    (ps : gmap N Product.t) : gmap N Product.t :=
  match ps !! productId with
  | Some product =>
      <[productId :=
          Product.setStock product (Product.stock product + quantity)]> ps
  | None => ps
  end.

(** *** The same two mutations on arbitrary numbers

    [product.stock] and [item.quantity] are JavaScript numbers: the
    comparison, the subtraction and the addition are those of doubles.
    A result that is [NaN] is refused by the cast of the [stock] path,
    and the save of the product is rejected. *)

Module Double.

(** Modelled from the spec: [Product.t] with the stock as the number
    the document holds. *)
Record Product := mkProduct {
  name : string;
  price : Js.number;
  image : string;
  stock : Js.number
}.

Definition setStock (product : Product) (s : Js.number) : Product :=
  {| name := name product; price := price product;
     image := image product; stock := s |}.

Inductive ReserveError :=
| NotFound (productId : ObjectId)
| Insufficient (name : string) (available : Js.number)
| SaveRejected.

(** [part_002] lines 101-113. *)
Definition reserve (productId : ObjectId) (quantity : Js.number)
    (ps : gmap N Product) : gmap N Product * (ReserveError + Product) :=
  match ps !! productId with
  | None => (ps, inl (NotFound productId))
  | Some product =>
      if Js.ltb (stock product) quantity
      then (ps, inl (Insufficient (name product) (stock product)))
      else
        let product' := setStock product (Js.sub (stock product) quantity) in
        if Js.isNaN (stock product') then (ps, inl SaveRejected)
        else (<[productId := product']> ps, inr product')
  end.

(** [part_002] lines 202-208; [None] when the save is rejected. *)
Definition restock (productId : ObjectId) (quantity : Js.number)
    (ps : gmap N Product) : option (gmap N Product) :=
  match ps !! productId with
  | Some product =>
      let product' := setStock product (Js.add (stock product) quantity) in
      if Js.isNaN (stock product') then None
      else Some (<[productId := product']> ps)
  | None => Some ps
  end.

Definition stockOf (ps : gmap N Product) (productId : ObjectId)
  : option Js.number :=
  stock <$> ps !! productId.

(** A product with an integer stock, as the document that holds it. *)
Definition ofProduct (product : Product.t) : Product :=
  {| name := Product.name product; price := Product.price product;
     image := Product.image product;
     stock := Js.ofZ (Product.stock product) |}.

(** The round trip of the stock of one product: when the stock is not
    negative and covers the quantity, [reserve] succeeds and a [restock]
    of the same quantity right after it leaves the stock equal ([===])
    to what it was. *)
Definition roundTrip (productId : ObjectId) (quantity : Js.number)
    (ps : gmap N Product) : Prop :=
  ∀ product,
    ps !! productId = Some product →
    Js.leb Js.zero (stock product) = true →
    Js.leb quantity (stock product) = true →
    ∃ ps' product' ps'' s,
      reserve productId quantity ps = (ps', inr product')
      ∧ restock productId quantity ps' = Some ps''
      ∧ stockOf ps'' productId = Some s
      ∧ Js.eqb s (stock product) = true.

End Double.

Definition reserveFailure (e : ReserveError) : Response :=
  match e with
  | NotFound productId => mkResponse 404 (ProductNotFound productId)
  | Insufficient name available =>
      mkResponse 400 (InsufficientStock name available)
  end.

(** The line snapshot pushed for a reserved line; [product] is the
    document as read from the database. *)
Definition snapshot (item : CartItem.t) (product : Product.t) : OrderItem.t :=
  {| OrderItem.productId := CartItem.productId item;
     OrderItem.name := Product.name product;
     OrderItem.quantity := CartItem.quantity item;
     OrderItem.price := Product.price product;
     OrderItem.image := Product.image product |}.

(** [product.price * item.quantity] *)
Definition lineAmount (price : Js.number) (quantity : Z) : Js.number :=
  Js.mul price (Js.ofZ quantity).

(** The [for (const item of cartItems)] loop of order placement, with its
    accumulators [orderProducts] and [totalAmount].  An early [return]
    keeps the products as saved so far. *)
Fixpoint processItems (cartItems : list CartItem.t) (ps : gmap N Product.t)
    (orderProducts : list OrderItem.t) (totalAmount : Js.number)
  : gmap N Product.t * (Response + list OrderItem.t * Js.number) :=
  match cartItems with
  | [] => (ps, inr (orderProducts, totalAmount))
  | item :: rest =>
      match reserve (CartItem.productId item) (CartItem.quantity item) ps with
      | (ps', inl e) => (ps', inl (reserveFailure e))
      | (ps', inr product') =>
          processItems rest ps'
            (orderProducts ++ [snapshot item product'])
            (Js.add totalAmount
               (lineAmount (Product.price product') (CartItem.quantity item)))
      end
  end.

(** The restock loop of a cancellation ([part_002] lines 201-209). *)
Definition restockItems (items : list OrderItem.t) (ps : gmap N Product.t)
  : gmap N Product.t :=
  fold_left
    (fun ps item =>
       restock (OrderItem.productId item) (OrderItem.quantity item) ps)
    items ps.

(** ** [routes/orderRoutes.js], revision of [src/unnamed/part_002] *)

Module OrderRoutes.

(** [!shippingAddress || shippingAddress === 'N/A'] (line 88). *)
Definition unusableAddress (shippingAddress : string) : bool :=
  String.eqb shippingAddress "" || String.eqb shippingAddress "N/A".

(** [router.post('/')], lines 76-149. *)
Definition placeOrder (userId : ObjectId) (paymentMethod : string)
    (cartItems : list CartItem.t) (db : Db) : Db * Response :=
  match users db !! userId with
  | None => (db, mkResponse 404 UserNotFound)
  | Some user =>
      let shippingAddress := User.address user in
      if unusableAddress shippingAddress
      then (db, mkResponse 400 MissingShippingAddress)
      else
        match cartItems with
        | [] => (db, mkResponse 400 EmptyCart)
        | _ =>
            match processItems cartItems (products db) [] Js.zero with
            | (ps, inl response) => (withProducts db ps, response)
            | (ps, inr (orderProducts, totalAmount)) =>
                let order :=
                  newOrder userId orderProducts (Js.toFixed2 totalAmount)
                    paymentMethod shippingAddress "pending" in
                if validOrder order
                then
                  ({| products := ps;
                      orders := orders db ++ [order];
                      users := <[userId := User.clearCart user]> (users db) |},
                   mkResponse 201 (OrderPlaced order))
                else (withProducts db ps, mkResponse 500 ServerError)
            end
        end
  end.

(** [router.put('/admin/:id/status')], lines 183-227.  The saved
    document differs from the stored one in [status] only, and [status]
    has just been checked against the enum. *)
Definition updateStatus (id : nat) (status : string) (db : Db)
  : Db * Response :=
  match orders db !! id with
  | None => (db, mkResponse 404 OrderNotFound)
  | Some order =>
      if negb (includes validStatuses status)
      then (db, mkResponse 400 InvalidStatus)
      else
        let cancelled s := String.eqb s "cancelled" in
        if cancelled status && negb (cancelled (Order.status order))
        then
          let order' := Order.setStatus order status in
          ({| products := restockItems (Order.items order) (products db);
              orders := <[id := order']> (orders db);
              users := users db |},
           mkResponse 200 (StatusUpdated order'))
        else if cancelled (Order.status order) && negb (cancelled status)
        then (db, mkResponse 400 InvalidTransition)
        else
          let order' := Order.setStatus order status in
          ({| products := products db;
              orders := <[id := order']> (orders db);
              users := users db |},
           mkResponse 200 (StatusUpdated order'))
  end.

End OrderRoutes.

(** ** [src/backend/routes/orderRoutes.js] *)

Module BackendOrderRoutes.

(** [router.post('/')], lines 12-95: no shipping address check before
    the loop, and the cart is not cleared. *)
Definition placeOrder (userId : ObjectId) (paymentMethod : string)
    (cartItems : list CartItem.t) (db : Db) : Db * Response :=
  match users db !! userId with
  | None => (db, mkResponse 404 UserNotFound)
  | Some user =>
      match cartItems with
      | [] => (db, mkResponse 400 EmptyCart)
      | _ =>
          match processItems cartItems (products db) [] Js.zero with
          | (ps, inl response) => (withProducts db ps, response)
          | (ps, inr (orderItems, totalAmount)) =>
              let order :=
                newOrder userId orderItems (Js.toFixed2 totalAmount)
                  paymentMethod (User.address user) "pending" in
              if validOrder order
              then
                ({| products := ps;
                    orders := orders db ++ [order];
                    users := users db |},
                 mkResponse 201 (OrderPlaced order))
              else (withProducts db ps, mkResponse 500 ServerError)
          end
      end
  end.

(** [router.put('/admin/:id/status')], lines 133-162. *)
Definition updateStatus (id : nat) (status : string) (db : Db)
  : Db * Response :=
  match orders db !! id with
  | None => (db, mkResponse 404 OrderNotFound)
  | Some order =>
      if negb (includes validStatuses status)
      then (db, mkResponse 400 InvalidStatus)
      else
        let order' := Order.setStatus order status in
        ({| products := products db;
            orders := <[id := order']> (orders db);
            users := users db |},
         mkResponse 200 (StatusUpdated order'))
  end.

End BackendOrderRoutes.

(** ** [routes/productRoutes.js], first document of [src/unnamed/part_003] *)

Module ProductRoutes.

(** [s || old] on strings. *)
Definition orElse (s old : string) : string :=
  if String.eqb s "" then old else s.

(** The body of [router.put('/:id')], lines 68-94, on the modelled
    fields: [name] and [image] keep their value when the request gives
    none (or an empty string), [price] and [stock] when it gives
    [undefined].  The route does not look at the sign of [price] or
    [stock].  The schema trims the name assigned and requires it
    ([models/Product.js], [src/unnamed/part_000] lines 6-10): the save of
    a blank name is rejected and answered 500; so is the save of a price
    that is [NaN]. *)
Definition updateProduct (id : ObjectId) (name : string)
    (price : option Js.number) (image : string) (stock : option Z) (db : Db)
  : Db * Z :=
  match products db !! id with
  | None => (db, 404)
  | Some product =>
      let product' :=
        {| Product.name := trim (orElse name (Product.name product));
           Product.price := default (Product.price product) price;
           Product.image := orElse image (Product.image product);
           Product.stock := default (Product.stock product) stock |} in
      if requiredString (Product.name product')
         && negb (Js.isNaN (Product.price product'))
      then (withProducts db (<[id := product']> (products db)), 200)
      else (db, 500)
  end.

End ProductRoutes.


(** ** Interleaved placements

    A handler is an [async] function: it runs without interruption from
    one [await] to the next, and each [await] of the placement handler
    waits for one database operation.  Requests in flight interleave at
    these points.  [Task] is the placement handler of [part_002]
    (lines 76-149) cut at its awaits: each constructor is a pending
    database operation together with the local variables of the handler;
    [step] lets the database perform the pending operation and runs the
    handler up to its next await.  [product.save()] writes the document
    the handler holds; nothing compares it with the stored one (the
    schemas set no optimistic concurrency). *)

Module Interleaving.

Record Locals := mkLocals {
  userId : ObjectId;
  user : User.t;
  paymentMethod : string;
  orderProducts : list OrderItem.t;
  totalAmount : Js.number
}.

Inductive Task :=
| FindUser (userId : ObjectId) (paymentMethod : string)
    (cartItems : list CartItem.t)
  (** [await User.findById(userId)] *)
| FindProduct (l : Locals) (item : CartItem.t) (rest : list CartItem.t)
  (** [await Product.findById(item.productId)] *)
| SaveProduct (l : Locals) (item : CartItem.t) (product : Product.t)
    (rest : list CartItem.t)
  (** [await product.save()], [product] holding the lowered stock *)
| SaveOrder (l : Locals) (order : Order.t)
  (** [await newOrder.save()] *)
| SaveUser (l : Locals) (order : Order.t)
  (** [await user.save()], after [user.cart = []] *)
| Done (response : Response).

(** Lines 116-123: push the snapshot, add to the total. *)
Definition pushLine (l : Locals) (item : CartItem.t) (product : Product.t)
  : Locals :=
  {| userId := userId l; user := user l; paymentMethod := paymentMethod l;
     orderProducts := orderProducts l ++ [snapshot item product];
     totalAmount :=
       Js.add (totalAmount l)
         (lineAmount (Product.price product) (CartItem.quantity item)) |}.

(** The head of the loop: the next line is looked up, or the loop is
    over and the order is built and its save issued. *)
Definition nextLine (l : Locals) (rest : list CartItem.t) : Task :=
  match rest with
  | item :: rest' => FindProduct l item rest'
  | [] =>
      SaveOrder l
        (newOrder (userId l) (orderProducts l) (Js.toFixed2 (totalAmount l))
           (paymentMethod l) (User.address (user l)) "pending")
  end.

Definition step (task : Task) (db : Db) : Task * Db :=
  match task with
  | FindUser userId paymentMethod cartItems =>
      match users db !! userId with
      | None => (Done (mkResponse 404 UserNotFound), db)
      | Some user =>
          if OrderRoutes.unusableAddress (User.address user)
          then (Done (mkResponse 400 MissingShippingAddress), db)
          else
            match cartItems with
            | [] => (Done (mkResponse 400 EmptyCart), db)
            | item :: rest =>
                (FindProduct (mkLocals userId user paymentMethod [] Js.zero)
                   item rest, db)
            end
      end
  | FindProduct l item rest =>
      match products db !! CartItem.productId item with
      | None =>
          (Done (mkResponse 404 (ProductNotFound (CartItem.productId item))),
           db)
      | Some product =>
          if Product.stock product <? CartItem.quantity item
          then
            (Done (mkResponse 400
                     (InsufficientStock (Product.name product)
                        (Product.stock product))), db)
          else
            (SaveProduct l item
               (Product.setStock product
                  (Product.stock product - CartItem.quantity item)) rest,
             db)
      end
  | SaveProduct l item product rest =>
      (nextLine (pushLine l item product) rest,
       withProducts db (<[CartItem.productId item := product]> (products db)))
  | SaveOrder l order =>
      if validOrder order
      then
        (SaveUser l order,
         {| products := products db; orders := orders db ++ [order];
            users := users db |})
      else (Done (mkResponse 500 ServerError), db)
  | SaveUser l order =>
      (Done (mkResponse 201 (OrderPlaced order)),
       {| products := products db; orders := orders db;
          users := <[userId l := User.clearCart (user l)]> (users db) |})
  | Done response => (Done response, db)
  end.

(** One handler running alone for [n] database operations. *)
Fixpoint runTask (n : nat) (task : Task) (db : Db) : Task * Db :=
  match n with
  | O => (task, db)
  | S n' => runTask n' (step task db).1 (step task db).2
  end.

(** The requests in flight and the database they share. *)
Record Sys := mkSys { db : Db; tasks : list Task }.

(** The database performs the pending operation of request [i]. *)
Definition stepAt (i : nat) (s : Sys) : Sys :=
  match tasks s !! i with
  | None => s
  | Some task =>
      let '(task', db') := step task (db s) in
      {| db := db'; tasks := <[i := task']> (tasks s) |}
  end.

(** A schedule names, operation by operation, the request served. *)
Definition schedule (sched : list nat) (s : Sys) : Sys :=
  fold_left (λ s i, stepAt i s) sched s.

Definition initial (task : Task) : Prop :=
  match task with FindUser _ _ _ => True | _ => False end.

Definition finished (task : Task) : Prop :=
  match task with Done _ => True | _ => False end.

Definition succeeded (task : Task) : bool :=
  match task with
  | Done (mkResponse 201 (OrderPlaced _)) => true
  | _ => false
  end.

Definition insufficient (task : Task) : bool :=
  match task with
  | Done (mkResponse 400 (InsufficientStock _ _)) => true
  | _ => false
  end.

(** The pending write of a request does not hold a negative stock. *)
Definition pendingNonneg (task : Task) : Prop :=
  match task with
  | SaveProduct _ _ product _ => 0 ≤ Product.stock product
  | _ => True
  end.

(** Of the requests started together, exactly one succeeds and exactly
    one fails for insufficient stock, however they are scheduled. *)
Definition oneSuccessOneFailure (start : Sys) : Prop :=
  ∀ sched,
    Forall finished (tasks (schedule sched start)) →
    length (filter (λ t, succeeded t = true) (tasks (schedule sched start)))
    = 1%nat
    ∧ length (filter (λ t, insufficient t = true)
                (tasks (schedule sched start)))
      = 1%nat.

End Interleaving.

(** ** Observations used in the statements *)

Definition stockOf (ps : gmap N Product.t) (productId : ObjectId) : option Z :=
  Product.stock <$> ps !! productId.


(** Total quantity the lines of [cartItems] ask of one product. *)
Fixpoint reserved (cartItems : list CartItem.t) (productId : ObjectId) : Z :=
  match cartItems with
  | [] => 0
  | item :: rest =>
      (if decide (CartItem.productId item = productId)
       then CartItem.quantity item else 0)
      + reserved rest productId
  end.

(** A placement response that reports a failed cart line. *)
Definition lineFailure (r : Response) : Prop :=
  ∃ e, r = reserveFailure e.

(** All-or-nothing placement, as a property of one request: when the
    response reports a failed line, no order has been added and every
    product has the stock it had before. *)
Definition allOrNothing (place : list CartItem.t → Db → Db * Response)
    (cartItems : list CartItem.t) (db : Db) : Prop :=
  lineFailure (place cartItems db).2 →
  orders (place cartItems db).1 = orders db
  ∧ ∀ productId,
      stockOf (products (place cartItems db).1) productId
      = stockOf (products db) productId.

(** The sum of price times quantity over line snapshots, in the
    arithmetic of the code: each amount is the double product, and the
    amounts are added to 0 in line order, as [totalAmount += ...] does. *)
Definition addLine (total : Js.number) (item : OrderItem.t) : Js.number :=
  Js.add total (lineAmount (OrderItem.price item) (OrderItem.quantity item)).

Definition itemsTotal (items : list OrderItem.t) : Js.number :=
  fold_left addLine items Js.zero.

(** The stored total of an order is the sum of its line snapshots
    ([===] on numbers). *)
Definition totalMatchesItems (order : Order.t) : Prop :=
  Js.eqb (Order.totalAmount order) (itemsTotal (Order.items order)) = true.

(** ** Sequences of requests *)

Inductive Op :=
| PlaceOrder (userId : ObjectId) (paymentMethod : string)
    (cartItems : list CartItem.t)
| UpdateStatus (id : nat) (status : string)
| BackendPlaceOrder (userId : ObjectId) (paymentMethod : string)
    (cartItems : list CartItem.t)
| BackendUpdateStatus (id : nat) (status : string)
| UpdateProduct (id : ObjectId) (name : string) (price : option Js.number)
    (image : string) (stock : option Z).

Definition apply (db : Db) (op : Op) : Db :=
  match op with
  | PlaceOrder userId paymentMethod cartItems =>
      (OrderRoutes.placeOrder userId paymentMethod cartItems db).1
  | UpdateStatus id status => (OrderRoutes.updateStatus id status db).1
  | BackendPlaceOrder userId paymentMethod cartItems =>
      (BackendOrderRoutes.placeOrder userId paymentMethod cartItems db).1
  | BackendUpdateStatus id status =>
      (BackendOrderRoutes.updateStatus id status db).1
  | UpdateProduct id name price image stock =>
      (ProductRoutes.updateProduct id name price image stock db).1
  end.

Definition run (ops : list Op) (db : Db) : Db := fold_left apply ops db.

(** The core operations: order placement and order status update. *)
Definition coreOp (op : Op) : Prop :=
  match op with
  | UpdateProduct _ _ _ _ _ => False
  | _ => True
  end.

Definition stocksNonneg (db : Db) : Prop :=
  ∀ productId product,
    products db !! productId = Some product → 0 ≤ Product.stock product.

(** Every stored order line has the quantity the Order schema asks for
    ([min: 1]). *)
Definition quantitiesValid (db : Db) : Prop :=
  ∀ order item,
    order ∈ orders db → item ∈ Order.items order →
    1 ≤ OrderItem.quantity item.

(** Total quantity the line snapshots of an order give back to one
    product when each line is restocked once. *)
Fixpoint credited (items : list OrderItem.t) (productId : ObjectId) : Z :=
  match items with
  | [] => 0
  | item :: rest =>
      (if decide (OrderItem.productId item = productId)
       then OrderItem.quantity item else 0)
      + credited rest productId
  end.

Definition isCancelled (order : Order.t) : bool :=
  String.eqb (Order.status order) "cancelled".

(** A sequence of status-update requests for one order. *)
Definition updateStatuses (id : nat) (statuses : list string) (db : Db) : Db :=
  fold_left (λ db status, (OrderRoutes.updateStatus id status db).1)
    statuses db.

(** ** Example data *)

Definition productA : Product.t :=
  {| Product.name := "A"; Product.price := Js.ofZ 10;
     Product.image := "a.png";
     Product.stock := 5 |}.

Definition productB : Product.t :=
  {| Product.name := "B"; Product.price := Js.ofZ 5;
     Product.image := "b.png";
     Product.stock := 2 |}.

Definition shelf : gmap N Product.t := <[1%N := productA]> (<[2%N := productB]> ∅).


Definition alice : User.t :=
  {| User.address := "12 Market Street"; User.cart := [] |}.

Definition shop : Db :=
  {| products := shelf; orders := []; users := {[ 7%N := alice ]} |}.

(** The cart of the spec's scenario: 3 of A (stock 5), 10 of B (stock 2). *)
Definition overdrawnCart : list CartItem.t :=
  [ CartItem.mk 1%N 3; CartItem.mk 2%N 10 ].

(** A product priced 1.0625, and the order of one unit of it. *)
Definition productC : Product.t :=
  {| Product.name := "C"; Product.price := Js.decimal 10625 10000;
     Product.image := "c.png";
     Product.stock := 4 |}.

Definition cornerShop : Db :=
  {| products := {[ 3%N := productC ]}; orders := [];
     users := {[ 7%N := alice ]} |}.

Definition orderOfC : Order.t :=
  {| Order.userId := 7%N;
     Order.items :=
       [ OrderItem.mk 3%N "C" 1 (Js.decimal 10625 10000) "c.png" ];
     Order.totalAmount := Js.decimal 106 100;
     Order.paymentMethod := "COD";
     Order.shippingAddress := "12 Market Street";
     Order.status := "pending" |}.

(** The order of the spec's scenario: 2 of A at 10 and 1 of B at 5. *)
Definition pendingOrder : Order.t :=
  {| Order.userId := 7%N;
     Order.items := [ OrderItem.mk 1%N "A" 2 (Js.ofZ 10) "a.png";
                      OrderItem.mk 2%N "B" 1 (Js.ofZ 5) "b.png" ];
     Order.totalAmount := Js.ofZ 25;
     Order.paymentMethod := "COD";
     Order.shippingAddress := "12 Market Street";
     Order.status := "pending" |}.

Definition cancelledOrder : Order.t := Order.setStatus pendingOrder "cancelled".

Definition backOffice : Db :=
  {| products := shelf; orders := [pendingOrder];
     users := {[ 7%N := alice ]} |}.

Definition archive : Db :=
  {| products := shelf; orders := [cancelledOrder];
     users := {[ 7%N := alice ]} |}.

(** A user whose profile carries the placeholder address. *)
Definition bob : User.t := {| User.address := "N/A"; User.cart := [] |}.

(** A user stored before the profile had an address. *)
Definition dave : User.t := {| User.address := ""; User.cart := [] |}.

Definition shopOfBob : Db :=
  {| products := shelf; orders := [];
     users := <[8%N := bob]> {[ 6%N := dave ]} |}.

Definition sampleOps : list Op :=
  [ PlaceOrder 7%N "COD" [ CartItem.mk 1%N 2; CartItem.mk 2%N 1 ];
    UpdateStatus 0 "cancelled";
    BackendPlaceOrder 7%N "COD" [ CartItem.mk 1%N (-3) ];
    UpdateStatus 0 "cancelled" ].

(** Two requests for 6 units each of a product with stock 10. *)
Definition productD : Product.t :=
  {| Product.name := "D"; Product.price := Js.ofZ 3;
     Product.image := "d.png";
     Product.stock := 10 |}.

Definition carol : User.t :=
  {| User.address := "4 Mill Lane"; User.cart := [] |}.

Definition stockroom : Db :=
  {| products := {[ 4%N := productD ]}; orders := [];
     users := <[7%N := alice]> {[ 9%N := carol ]} |}.

Definition race : Interleaving.Sys :=
  {| Interleaving.db := stockroom;
     Interleaving.tasks :=
       [ Interleaving.FindUser 7%N "COD" [ CartItem.mk 4%N 6 ];
         Interleaving.FindUser 9%N "Card" [ CartItem.mk 4%N 6 ] ] |}.

(** Each request reads before the other writes. *)
Definition interleaved : list nat := [0; 1; 0; 1; 0; 1; 0; 1; 0; 1]%nat.

(** The second request starts when the first has answered. *)
Definition backToBack : list nat := [0; 0; 0; 0; 0; 1; 1; 1; 1; 1]%nat.

(** A product sold by weight, with 3.9 in stock, and the double that
    follows 3.9, which is 3.9000000000000004. *)
Definition productE : Double.Product :=
  {| Double.name := "E"; Double.price := Js.ofZ 4;
     Double.image := "e.png"; Double.stock := Js.decimal 39 10 |}.

Definition looseGoods : gmap N Double.Product := {[ 5%N := productE ]}.

Definition after39 : Js.number := S754_finite false 8782019273372468 (-51).

(** ** Further observations *)

(** What the shop shows of a product: everything but its stock. *)
Definition catalogue (ps : gmap N Product.t) (productId : ObjectId)
  : option (string * Js.number * string) :=
  (λ product,
     (Product.name product, Product.price product, Product.image product))
  <$> ps !! productId.

(** A request of the revision with stock reversal. *)
Definition reversalOp (op : Op) : Prop :=
  match op with
  | PlaceOrder _ _ _ | UpdateStatus _ _ => True
  | _ => False
  end.

(** [GET /api/orders] ([part_002] lines 154-164,
    [backend/routes/orderRoutes.js] lines 100-111, without the populated
    product details): the orders of the caller, newest first.  The
    collection is in creation order. *)
Definition listOrders (userId : ObjectId) (db : Db) : list Order.t :=
  reverse (filter (λ order, Order.userId order = userId) (orders db)).

(** ** Paths and route tables

    A path segment, or an id sent in a request body, is a string.  Some
    strings are the text of an [ObjectId]: [findById] casts them to the
    id.  Among these, [IdSegment id] is the text that [id.toString()]
    gives (24 hexadecimal digits in lower case) and [OtherIdSegment id]
    is any other text that casts to [id] (a digit in upper case).
    [WordSegment] is a string that is not the text of an id: [findById]
    throws on it.  Express serves a request with the first route
    registered for its method whose pattern matches the path; the
    handlers modelled here never pass the request on. *)

Inductive Segment :=
| IdSegment (id : ObjectId)
| OtherIdSegment (id : ObjectId)
| WordSegment (word : string).

Inductive Pattern :=
| Literal (word : string)   (** ['/clear'] *)
| Param.                    (** ['/:productId'] *)

Definition matches (pattern : Pattern) (segment : Segment) : bool :=
  match pattern, segment with
  | Param, _ => true
  | Literal word, WordSegment word' => String.eqb word word'
  | Literal _, _ => false
  end.

Fixpoint route {Handler : Type} (table : list (Pattern * Handler))
    (segment : Segment) : option Handler :=
  match table with
  | [] => None
  | (pattern, handler) :: rest =>
      if matches pattern segment then Some handler else route rest segment
  end.

(** [item.productId.toString() === productId], a comparison of strings. *)
Definition sameProduct (segment : Segment) (productId : ObjectId) : bool :=
  match segment with
  | IdSegment id => N.eqb productId id
  | OtherIdSegment _ | WordSegment _ => false
  end.

(** The id that [findById] looks up for a segment. *)
Definition castId (segment : Segment) : option ObjectId :=
  match segment with
  | IdSegment id | OtherIdSegment id => Some id
  | WordSegment _ => None
  end.

(** ** The cart routes of the combined routes file

    The second document of [src/backend/routes/orderRoutes.js]
    registers two [DELETE] routes under [/cart]. *)



(** ** The cart collection

    [models/Cart.js] ([src/unnamed/part_001]): one cart document per user
    ([userId] is unique), holding lines that copy the name, price and
    image of the product. *)

Module CartLine.
(** [cartItemSchema], lines 4-29. *)
Record t := mk {
  productId : ObjectId;
  name : string;
  price : Js.number;
  quantity : Z;
  image : string
}.

Definition setQuantity (line : t) (q : Z) : t :=
  {| productId := productId line; name := name line; price := price line;
     quantity := q; image := image line |}.
End CartLine.

(** The line pushed for a product. *)
Definition cartLine (product : Product.t) (productId : ObjectId)
    (quantity : Z) : CartLine.t :=
  {| CartLine.productId := productId; CartLine.name := Product.name product;
     CartLine.price := Product.price product; CartLine.quantity := quantity;
     CartLine.image := Product.image product |}.

(** [cart.items.findIndex(item => item.productId.toString() === productId)],
    with the line found at that index. *)
Fixpoint findIndex (productId : Segment) (items : list CartLine.t)
  : option (nat * CartLine.t) :=
  match items with
  | [] => None
  | item :: rest =>
      if sameProduct productId (CartLine.productId item) then Some (O, item)
      else prod_map S id <$> findIndex productId rest
  end.

(** [cart.save()]: the schema requires the name of every line. *)
Definition validCart (items : list CartLine.t) : bool :=
  forallb (λ item, requiredString (CartLine.name item)) items.

(** The bodies of the answers.  [CartOf] is the cart document itself
    ([res.json(cart)]); [ItemRemoved] is a message together with the
    cart ([res.json({ message, cart })]); the other bodies are
    messages. *)
Inductive CartBody :=
| CartNotFound
| CartItemNotFound
| NoCartToClear
| CartCleared
| CartOf (items : list CartLine.t)
| ItemRemoved (items : list CartLine.t)
| CartServerError.

Record CartResponse := cartRespond { cartCode : Z; cartBody : CartBody }.

Definition CartHandler : Type :=
  ObjectId → Segment → gmap N (list CartLine.t)
  → gmap N (list CartLine.t) * CartResponse.

(** [DELETE /clear], the same in both revisions ([part_004] lines 88-104,
    [backend/routes/cartRoutes.js] lines 147-162) but for the cart that
    [part_004] sends along with the message. *)
Definition clearItems : CartHandler := λ userId _ carts,
  match carts !! userId with
  | None => (carts, cartRespond 200 NoCartToClear)
  | Some _ => (<[userId := []]> carts, cartRespond 200 CartCleared)
  end.

(** [DELETE /<segment>] as the router serves it from a table of
    routes. *)
Definition serveDelete (table : list (Pattern * CartHandler))
    (userId : ObjectId) (segment : Segment) (carts : gmap N (list CartLine.t))
  : option (gmap N (list CartLine.t) * CartResponse) :=
  (λ handler : CartHandler, handler userId segment carts)
  <$> route table segment.

(** *** [routes/cartRoutes.js], first document of [src/unnamed/part_004] *)

Module CartRoutes.

(** [DELETE /:productId], lines 158-185: the answer is the cart read
    back (without the populated product details). *)
Definition removeItem : CartHandler := λ userId productId carts,
  match carts !! userId with
  | None => (carts, cartRespond 404 CartNotFound)
  | Some items =>
      let items' :=
        filter (λ item, sameProduct productId (CartLine.productId item) = false)
          items in
      if (length items' =? length items)%nat
      then (carts, cartRespond 404 CartItemNotFound)
      else if validCart items'
      then (<[userId := items']> carts, cartRespond 200 (CartOf items'))
      else (carts, cartRespond 500 CartServerError)
  end.

(** The [DELETE] routes in the order the file registers them (lines 88
    and 158): [/clear] comes first. *)
Definition deleteRoutes : list (Pattern * CartHandler) :=
  [ (Literal "clear", clearItems); (Param, removeItem) ].

End CartRoutes.

(** *** [src/backend/routes/cartRoutes.js] *)

Module BackendCartRoutes.

(** [PUT /:productId], lines 83-113: a quantity of 0 or less removes the
    line; the answer is the saved cart. *)
Definition updateItem (userId : ObjectId) (productId : Segment)
    (quantity : Z) (carts : gmap N (list CartLine.t))
  : gmap N (list CartLine.t) * CartResponse :=
  match carts !! userId with
  | None => (carts, cartRespond 404 CartNotFound)
  | Some items =>
      match findIndex productId items with
      | Some (itemIndex, item) =>
          let items' :=
            if quantity <=? 0 then delete itemIndex items
            else <[itemIndex := CartLine.setQuantity item quantity]> items in
          if validCart items'
          then (<[userId := items']> carts, cartRespond 200 (CartOf items'))
          else (carts, cartRespond 500 CartServerError)
      | None => (carts, cartRespond 404 CartItemNotFound)
      end
  end.

(** [DELETE /:productId], lines 118-142: the answer is a message
    together with the saved cart. *)
Definition removeItem : CartHandler := λ userId productId carts,
  match carts !! userId with
  | None => (carts, cartRespond 404 CartNotFound)
  | Some items =>
      let items' :=
        filter (λ item, sameProduct productId (CartLine.productId item) = false)
          items in
      if (length items' =? length items)%nat
      then (carts, cartRespond 404 CartItemNotFound)
      else if validCart items'
      then (<[userId := items']> carts, cartRespond 200 (ItemRemoved items'))
      else (carts, cartRespond 500 CartServerError)
  end.

(** The [DELETE] routes in the order the file registers them (lines 118
    and 147): [/:productId] comes first. *)
Definition deleteRoutes : list (Pattern * CartHandler) :=
  [ (Param, removeItem); (Literal "clear", clearItems) ].

End BackendCartRoutes.

(** The cart of one user: two units of A. *)
Definition basket : gmap N (list CartLine.t) :=
  {[ 5%N := [ cartLine productA 1%N 2 ] ]}.

(** ** Authentication middleware and user administration *)

Module Account.
(** [userSchema], [src/backend/models/User.js] lines 4-46. *)
Record t := mk {
  name : string;
  email : string;
  password : string;
  address : string;
  phone : string;
  role : string
}.

Definition setRole (user : t) (r : string) : t :=
  {| name := name user; email := email user; password := password user;
     address := address user; phone := phone user; role := r |}.
End Account.

Module Profile.
(** A user document read with [select('-password')]: its [_id] and every
    path but the password. *)
Record t := mk {
  id : ObjectId;
  name : string;
  email : string;
  address : string;
  phone : string;
  role : string
}.

Definition ofAccount (id : ObjectId) (user : Account.t) : t :=
  {| id := id; name := Account.name user; email := Account.email user;
     address := Account.address user; phone := Account.phone user;
     role := Account.role user |}.
End Profile.

(** [String.prototype.split] on a one-character separator. *)
Fixpoint splitOn (sep : Ascii.ascii) (s : string) : list string :=
  match s with
  | EmptyString => [EmptyString]
  | String c s' =>
      if Ascii.eqb c sep then EmptyString :: splitOn sep s'
      else
        match splitOn sep s' with
        | head :: tail => String c head :: tail
        | [] => [String c EmptyString]
        end
  end.

(** [req.headers.authorization.split(' ')[1]] *)
Definition bearerToken (header : string) : option string :=
  splitOn (Ascii.ascii_of_nat 32) header !! 1%nat.

(** [!token] *)
Definition noToken (token : option string) : bool :=
  match token with
  | None => true
  | Some token => String.eqb token ""
  end.

(** What [jwt.verify] does with a token and a secret: the decoded
    payload's [id], or the error it throws. *)
Inductive Verified :=
| Decoded (id : option Segment)
| TokenExpiredError
| JsonWebTokenError
| OtherError.

Inductive AuthMessage :=
| UserNotFoundTokenInvalid
| TokenExpired
| TokenInvalid
| AuthenticationFailed
| NoTokenProvided
| TokenFailed
| AccessDenied.

(** What a middleware does with a request: it answers, or hands the
    request on with [req.user] set. *)
Inductive Effect :=
| Respond (code : Z) (message : AuthMessage)
| Next (id : option Segment) (user : option Profile.t).

Section Middleware.

(** [jsonwebtoken]'s [verify], a library outside the repository. *)
Variable verify : option string → string → Verified.

(** [User.findById(decoded.id).select('-password')]: a missing id finds
    nothing, a word that is no id makes the query throw ([None]). *)
Definition findAccount (id : option Segment) (accounts : gmap N Account.t)
  : option (option Profile.t) :=
  match id with
  | None => Some None
  | Some segment =>
      match castId segment with
      | None => None
      | Some id => Some (Profile.ofAccount id <$> accounts !! id)
      end
  end.

(** [protect] of [src/backend/middleware/authMiddleware.js], lines 6-56
    (first document).  [req.user] is the document read without its
    password. *)
Definition protect (authorization : option string) (secret : string)
    (accounts : gmap N Account.t) : list Effect :=
  match authorization with
  | Some header =>
      if String.prefix "Bearer" header
      then
        let token := bearerToken header in
        if String.eqb secret "" then [Respond 401 AuthenticationFailed]
        else
          match verify token secret with
          | Decoded id =>
              match findAccount id accounts with
              | Some (Some user) => [Next id (Some user)]
              | Some None => [Respond 401 UserNotFoundTokenInvalid]
              | None => [Respond 401 AuthenticationFailed]
              end
          | TokenExpiredError => [Respond 401 TokenExpired]
          | JsonWebTokenError => [Respond 401 TokenInvalid]
          | OtherError => [Respond 401 AuthenticationFailed]
          end
      else [Respond 401 NoTokenProvided]
  | None => [Respond 401 NoTokenProvided]
  end.

(** [protect] of [middleware/auth.js] (third document of the same file,
    lines 146-170): the secret is not checked, a missing user is not
    checked, the [catch] does not return, and the test [!token] follows
    the [try]. *)
Definition protectAuth (authorization : option string) (secret : string)
    (accounts : gmap N Account.t) : list Effect :=
  match authorization with
  | Some header =>
      if String.prefix "Bearer" header
      then
        let token := bearerToken header in
        let tried :=
          match verify token secret with
          | Decoded id =>
              match findAccount id accounts with
              | Some user => [Next id user]
              | None => [Respond 401 TokenFailed]
              end
          | _ => [Respond 401 TokenFailed]
          end in
        tried ++ (if noToken token then [Respond 401 NoTokenProvided] else [])
      else [Respond 401 NoTokenProvided]
  | None => [Respond 401 NoTokenProvided]
  end.

(** [authorize(...roles)] of [authMiddleware.js], lines 60-69. *)
Definition authorize (roles : list string) (user : option Profile.t) : bool :=
  match user with
  | None => false
  | Some user => includes roles (Profile.role user)
  end.

(** *** User administration (combined routes file, lines 696-747) *)

Inductive AdminBody :=
| InvalidRole
| AdminUserNotFound
| OwnRole
| OwnAccount
| RoleUpdated (user : Account.t)
| UserDeleted
| AdminServerError.

Inductive AdminAnswer :=
| Refused (code : Z) (message : AuthMessage)
| Answered (code : Z) (body : AdminBody)
| Unanswered.

(** The regular expression of the [email] path, a parameter here. *)
Variable emailMatches : string → bool.

(** Validation run by [user.save()]. *)
Definition validAccount (user : Account.t) : bool :=
  requiredString (Account.name user)
  && requiredString (Account.email user)
  && emailMatches (Account.email user)
  && requiredString (Account.password user)
  && requiredString (Account.address user)
  && requiredString (Account.phone user)
  && includes ["user"; "admin"]%string (Account.role user).

(** [PUT /auth/users/:id/role], lines 696-725; [actor] is [req.user.id].
    The two ids compared on line 709 are both those of documents. *)
Definition updateUserRole (actor : ObjectId) (target : Segment)
    (role : string) (accounts : gmap N Account.t)
  : gmap N Account.t * AdminAnswer :=
  if negb (includes ["user"; "admin"]%string role)
  then (accounts, Answered 400 InvalidRole)
  else
    match castId target with
    | None => (accounts, Answered 500 AdminServerError)
    | Some id =>
        match accounts !! id with
        | None => (accounts, Answered 404 AdminUserNotFound)
        | Some user =>
            if N.eqb id actor then (accounts, Answered 403 OwnRole)
            else
              let user' := Account.setRole user role in
              if validAccount user'
              then (<[id := user']> accounts, Answered 200 (RoleUpdated user'))
              else (accounts, Answered 500 AdminServerError)
        end
    end.

(** [DELETE /auth/users/:id], lines 730-747. *)
Definition deleteUser (actor : ObjectId) (target : Segment)
    (accounts : gmap N Account.t) : gmap N Account.t * AdminAnswer :=
  match castId target with
  | None => (accounts, Answered 500 AdminServerError)
  | Some id =>
      match accounts !! id with
      | None => (accounts, Answered 404 AdminUserNotFound)
      | Some user =>
          if N.eqb id actor then (accounts, Answered 403 OwnAccount)
          else (delete id accounts, Answered 200 UserDeleted)
      end
  end.

Inductive AdminRequest :=
| SetRole (target : Segment) (role : string)
| DeleteUser (target : Segment).

(** A request to a route mounted as
    [router.put(path, protect, authorize('admin'), handler)]: the handler
    runs when [protect] hands the request on and [authorize] lets it
    pass. *)
Definition serveAdmin (authorization : option string) (secret : string)
    (request : AdminRequest) (accounts : gmap N Account.t)
  : gmap N Account.t * AdminAnswer :=
  match protect authorization secret accounts with
  | [Next _ user] =>
      if authorize ["admin"]%string user
      then
        match user, request with
        | Some actor, SetRole target role =>
            updateUserRole (Profile.id actor) target role accounts
        | Some actor, DeleteUser target =>
            deleteUser (Profile.id actor) target accounts
        | None, _ => (accounts, Unanswered)
        end
      else (accounts, Refused 403 AccessDenied)
  | Respond code message :: _ => (accounts, Refused code message)
  | _ => (accounts, Unanswered)
  end.

Definition serveAdminAll (secret : string)
    (requests : list (option string * AdminRequest))
    (accounts : gmap N Account.t) : gmap N Account.t :=
  fold_left
    (λ accounts request,
       (serveAdmin request.1 secret request.2 accounts).1)
    requests accounts.

End Middleware.

Definition hasAdmin (accounts : gmap N Account.t) : Prop :=
  ∃ id user, accounts !! id = Some user ∧ Account.role user = "admin"%string.

(** A verifier for the examples: one token is good and names the account
    1, another names the deleted account 2, anything else is invalid. *)
Definition sampleVerify (token : option string) (secret : string) : Verified :=
  match token with
  | Some token =>
      if String.eqb token "good" then Decoded (Some (IdSegment 1%N))
      else if String.eqb token "gone" then Decoded (Some (IdSegment 2%N))
      else JsonWebTokenError
  | None => JsonWebTokenError
  end.

Definition root : Account.t :=
  {| Account.name := "Root"; Account.email := "root@shop.example";
     Account.password := "$2a$10$hash"; Account.address := "1 Main Street";
     Account.phone := "555-0100"; Account.role := "admin" |}.

Definition staff : gmap N Account.t := {[ 1%N := root ]}.
(** * Properties *)

(** ** Doubles on integers

    The double of an integer of magnitude below 2^53 is the integer
    itself, and subtraction, addition and comparison of such doubles give
    the double of the integer result. *)

Lemma iter_pos_nat {A} (f : A → A) n x :
  SpecFloat.iter_pos f n x = Nat.iter (Pos.to_nat n) f x.
Proof.
  transitivity (Pos.iter f x n); [|apply Pos2Nat.inj_iter].
  revert x.
  induction n as [n IH|n IH|]; intros x; simpl; [|by rewrite !IH|done].
  rewrite !IH. by rewrite !Pos.iter_swap.
Qed.

Lemma pos_iter_shl p n : Pos.iter xO p n = Js.shl p (Pos.to_nat n).
Proof. apply Pos2Nat.inj_iter. Qed.

Lemma shl_val p k : Zpos (Js.shl p k) = Zpos p * 2 ^ Z.of_nat k.
Proof.
  induction k as [|k IH]; [simpl; lia|].
  change (Js.shl p (S k)) with (xO (Js.shl p k)).
  rewrite (Pos2Z.inj_xO (Js.shl p k)), IH, Nat2Z.inj_succ, Z.pow_succ_r
    by lia.
  lia.
Qed.

Lemma digits_shl p k : Js.digits (Js.shl p k) = Js.digits p + Z.of_nat k.
Proof.
  unfold Js.digits. induction k as [|k IH]; [simpl; lia|].
  change (Js.shl p (S k)) with (xO (Js.shl p k)). simpl digits2_pos. lia.
Qed.

Lemma digits_bounds p : 2 ^ (Js.digits p - 1) ≤ Zpos p < 2 ^ Js.digits p.
Proof.
  unfold Js.digits. induction p as [p IH|p IH|]; simpl digits2_pos.
  - rewrite Pos2Z.inj_succ, (Pos2Z.inj_xI p).
    replace (Z.succ (Zpos (digits2_pos p)) - 1)
      with (Z.succ (Zpos (digits2_pos p) - 1)) by lia.
    rewrite !Z.pow_succ_r by lia.
    generalize dependent (2 ^ (Zpos (digits2_pos p) - 1)).
    generalize dependent (2 ^ Zpos (digits2_pos p)). lia.
  - rewrite Pos2Z.inj_succ, (Pos2Z.inj_xO p).
    replace (Z.succ (Zpos (digits2_pos p)) - 1)
      with (Z.succ (Zpos (digits2_pos p) - 1)) by lia.
    rewrite !Z.pow_succ_r by lia.
    generalize dependent (2 ^ (Zpos (digits2_pos p) - 1)).
    generalize dependent (2 ^ Zpos (digits2_pos p)).
    lia.
  - simpl. lia.
Qed.

Lemma digits_pos p : 1 ≤ Js.digits p.
Proof. unfold Js.digits. lia. Qed.

Lemma digits_le p n : 0 ≤ n → Zpos p < 2 ^ n → Js.digits p ≤ n.
Proof.
  intros Hn Hp. destruct (Z.le_gt_cases (Js.digits p) n) as [|Hlt]; [done|].
  pose proof (digits_bounds p) as [Hlo _].
  assert (2 ^ n ≤ 2 ^ (Js.digits p - 1)) by (apply Z.pow_le_mono_r; lia). lia.
Qed.

Lemma shr_exact p (n k : nat) :
  (n ≤ k)%nat →
  Nat.iter n shr_1
    {| shr_m := Zpos (Js.shl p k); shr_r := false; shr_s := false |}
  = {| shr_m := Zpos (Js.shl p (k - n)); shr_r := false; shr_s := false |}.
Proof.
  induction n as [|n IH]; intros Hn; [by rewrite Nat.sub_0_r|].
  simpl Nat.iter. rewrite IH by lia.
  replace (k - n)%nat with (S (k - S n)) by lia. reflexivity.
Qed.

Lemma fexp_small e : -1021 ≤ e → fexp Js.prec Js.emax e = e - 53.
Proof. unfold fexp, emin, Js.prec, Js.emax. lia. Qed.

(** A mantissa of 53 bits is left as it is. *)
Lemma shr_fexp_normal m e :
  Js.digits m = 53 → -1074 ≤ e →
  shr_fexp Js.prec Js.emax (Zpos m) e loc_Exact
  = ({| shr_m := Zpos m; shr_r := false; shr_s := false |}, e).
Proof.
  intros Hm He. unfold shr_fexp.
  change (Zdigits2 (Zpos m)) with (Js.digits m). rewrite Hm.
  rewrite fexp_small by lia.
  replace (53 + e - 53 - e) with 0 by lia. reflexivity.
Qed.

Lemma binary_round_aux_normal s m e :
  Js.digits m = 53 → -1074 ≤ e ≤ 971 →
  binary_round_aux Js.prec Js.emax s (Zpos m) e loc_Exact = S754_finite s m e.
Proof.
  intros Hm He. unfold binary_round_aux.
  rewrite shr_fexp_normal by (done || lia).
  cbn [shr_m loc_of_shr_record round_nearest_even].
  rewrite shr_fexp_normal by (done || lia). cbn [shr_m].
  destruct (Z.leb_spec e (Js.emax - Js.prec)) as [|Hgt]; [done|].
  unfold Js.emax, Js.prec in Hgt. lia.
Qed.

(** A longer mantissa whose extra bits are zero is shifted down to 53
    bits, exactly. *)
Lemma shr_fexp_long p (k : nat) n :
  Js.digits p ≤ 53 →
  Js.digits p - 53 + Z.of_nat k = Zpos n →
  shr_fexp Js.prec Js.emax (Zpos (Js.shl p k)) (- Z.of_nat k) loc_Exact
  = ({| shr_m := Zpos (Js.shl p (Z.to_nat (53 - Js.digits p)));
        shr_r := false; shr_s := false |}, Js.digits p - 53).
Proof.
  intros Hp Hn. pose proof (digits_pos p) as Hd. unfold shr_fexp.
  change (Zdigits2 (Zpos (Js.shl p k))) with (Js.digits (Js.shl p k)).
  rewrite digits_shl.
  replace (Js.digits p + Z.of_nat k + - Z.of_nat k) with (Js.digits p) by lia.
  rewrite fexp_small by lia.
  replace (Js.digits p - 53 - - Z.of_nat k) with (Zpos n) by lia.
  cbn [shr shr_record_of_loc]. rewrite iter_pos_nat, shr_exact by lia.
  f_equal; [|lia]. f_equal. f_equal. f_equal. lia.
Qed.

(** Rounding a positive integer below 2^53 that comes with [k] more
    zero bits, at the exponent [-k]. *)
Lemma binary_round_shl s p (k : nat) :
  Js.digits p ≤ 53 →
  binary_round Js.prec Js.emax s (Js.shl p k) (- Z.of_nat k) = Js.normal s p.
Proof.
  intros Hp. pose proof (digits_pos p) as Hd.
  unfold binary_round.
  change (Zpos (digits2_pos (Js.shl p k))) with (Js.digits (Js.shl p k)).
  rewrite digits_shl.
  replace (Js.digits p + Z.of_nat k + - Z.of_nat k) with (Js.digits p) by lia.
  rewrite fexp_small by lia.
  unfold shl_align.
  destruct (Js.digits p - 53 - - Z.of_nat k) as [|n|n] eqn:Hdiff.
  - (* 53 bits already *)
    rewrite binary_round_aux_normal; [|rewrite digits_shl; lia|lia].
    unfold Js.normal. f_equal; [|lia]. f_equal. lia.
  - (* more than 53 bits: shift right *)
    unfold binary_round_aux.
    rewrite (shr_fexp_long p k n) by lia.
    cbn [shr_m loc_of_shr_record round_nearest_even].
    rewrite shr_fexp_normal; [|rewrite digits_shl; lia|lia]. cbn [shr_m].
    destruct (Z.leb_spec (Js.digits p - 53) (Js.emax - Js.prec)) as [|Hgt];
      [done|].
    unfold Js.emax, Js.prec in Hgt. lia.
  - (* fewer than 53 bits: shift left *)
    rewrite pos_iter_shl.
    assert (Js.shl (Js.shl p k) (Pos.to_nat n)
            = Js.shl p (Z.to_nat (53 - Js.digits p))) as ->.
    { unfold Js.shl. rewrite <- Nat.iter_add. f_equal. lia. }
    rewrite binary_round_aux_normal; [done| rewrite digits_shl; lia | lia].
Qed.

Lemma safe_digits p : Js.safe (Zpos p) → Js.digits p ≤ 53.
Proof. intros [_ Hp]. by apply digits_le. Qed.

Lemma safe_digits_neg p : Js.safe (Zneg p) → Js.digits p ≤ 53.
Proof. intros [Hp _]. apply digits_le; lia. Qed.

(** The double of a safe integer. *)
Lemma ofZ_safe z :
  Js.safe z →
  Js.ofZ z
  = match z with
    | 0 => S754_zero false
    | Zpos p => Js.normal false p
    | Zneg p => Js.normal true p
    end.
Proof.
  intros Hz. destruct z as [|p|p]; [done| |].
  - apply (binary_round_shl false p 0). by apply safe_digits.
  - apply (binary_round_shl true p 0). by apply safe_digits_neg.
Qed.

(** An integer that comes scaled by a power of 2 rounds to its double. *)
Lemma binary_normalize_scaled (c : Z) (k : nat) (e : Z) :
  Js.safe c → e = - Z.of_nat k →
  binary_normalize Js.prec Js.emax (c * 2 ^ Z.of_nat k) e false = Js.ofZ c.
Proof.
  intros Hc ->. rewrite (ofZ_safe c Hc). destruct c as [|p|p]; [done| |].
  - rewrite <- shl_val. apply binary_round_shl. by apply safe_digits.
  - replace (Zneg p * 2 ^ Z.of_nat k) with (Zneg (Js.shl p k))
      by (rewrite <- !Pos2Z.opp_pos, shl_val; lia).
    apply binary_round_shl. by apply safe_digits_neg.
Qed.

(** Aligning a normal mantissa to a lower exponent appends zero bits. *)
Lemma shl_align_normal p ez :
  Js.digits p ≤ 53 → ez ≤ Js.digits p - 53 →
  fst (shl_align (Js.shl p (Z.to_nat (53 - Js.digits p))) (Js.digits p - 53) ez)
  = Js.shl p (Z.to_nat (- ez)).
Proof.
  intros Hp Hez. unfold shl_align.
  destruct (ez - (Js.digits p - 53)) as [|n|n] eqn:Hdiff; cbn [fst].
  - f_equal. lia.
  - lia.
  - rewrite pos_iter_shl. unfold Js.shl. rewrite <- Nat.iter_add. f_equal. lia.
Qed.

Lemma signed_shl s p k :
  Js.signed s (Js.shl p k) = Js.signed s p * 2 ^ Z.of_nat k.
Proof. unfold Js.signed. destruct s; simpl; rewrite ?shl_val; lia. Qed.

Lemma sub_normal sa pa sb pb :
  Js.digits pa ≤ 53 → Js.digits pb ≤ 53 →
  Js.safe (Js.signed sa pa - Js.signed sb pb) →
  Js.sub (Js.normal sa pa) (Js.normal sb pb) = Js.ofZ (Js.signed sa pa - Js.signed sb pb).
Proof.
  intros Ha Hb Hc. unfold Js.sub, Js.normal, SFsub.
  set (ez := Z.min (Js.digits pa - 53) (Js.digits pb - 53)).
  rewrite !shl_align_normal by lia.
  fold (Js.signed sa (Js.shl pa (Z.to_nat (- ez)))).
  fold (Js.signed sb (Js.shl pb (Z.to_nat (- ez)))).
  rewrite !signed_shl, <- Z.mul_sub_distr_r.
  apply binary_normalize_scaled; [done | lia].
Qed.

Lemma add_normal sa pa sb pb :
  Js.digits pa ≤ 53 → Js.digits pb ≤ 53 →
  Js.safe (Js.signed sa pa + Js.signed sb pb) →
  Js.add (Js.normal sa pa) (Js.normal sb pb) = Js.ofZ (Js.signed sa pa + Js.signed sb pb).
Proof.
  intros Ha Hb Hc. unfold Js.add, Js.normal, SFadd.
  set (ez := Z.min (Js.digits pa - 53) (Js.digits pb - 53)).
  rewrite !shl_align_normal by lia.
  fold (Js.signed sa (Js.shl pa (Z.to_nat (- ez)))).
  fold (Js.signed sb (Js.shl pb (Z.to_nat (- ez)))).
  rewrite !signed_shl, <- Z.mul_add_distr_r.
  apply binary_normalize_scaled; [done | lia].
Qed.

(** Subtraction and addition of safe integers are exact. *)
Lemma ofZ_sub a b :
  Js.safe a → Js.safe b → Js.safe (a - b) →
  Js.sub (Js.ofZ a) (Js.ofZ b) = Js.ofZ (a - b).
Proof.
  intros Ha Hb Hc. rewrite (ofZ_safe a Ha), (ofZ_safe b Hb).
  destruct a as [|pa|pa], b as [|pb|pb].
  - done.
  - rewrite (ofZ_safe _ Hc). done.
  - rewrite (ofZ_safe _ Hc). done.
  - rewrite (ofZ_safe _ Hc). done.
  - apply (sub_normal false pa false pb); [by apply safe_digits..|done].
  - apply (sub_normal false pa true pb);
      [by apply safe_digits | by apply safe_digits_neg | done].
  - rewrite (ofZ_safe _ Hc). done.
  - apply (sub_normal true pa false pb);
      [by apply safe_digits_neg | by apply safe_digits | done].
  - apply (sub_normal true pa true pb); [by apply safe_digits_neg..|done].
Qed.

Lemma ofZ_add a b :
  Js.safe a → Js.safe b → Js.safe (a + b) →
  Js.add (Js.ofZ a) (Js.ofZ b) = Js.ofZ (a + b).
Proof.
  intros Ha Hb Hc. rewrite (ofZ_safe a Ha), (ofZ_safe b Hb).
  destruct a as [|pa|pa], b as [|pb|pb].
  - done.
  - rewrite (ofZ_safe _ Hc). done.
  - rewrite (ofZ_safe _ Hc). done.
  - rewrite (ofZ_safe _ Hc). done.
  - apply (add_normal false pa false pb); [by apply safe_digits..|done].
  - apply (add_normal false pa true pb);
      [by apply safe_digits | by apply safe_digits_neg | done].
  - rewrite (ofZ_safe _ Hc). done.
  - apply (add_normal true pa false pb);
      [by apply safe_digits_neg | by apply safe_digits | done].
  - apply (add_normal true pa true pb); [by apply safe_digits_neg..|done].
Qed.

(** The order of two normal doubles of the same sign is that of the
    integers. *)
Lemma compare_normal pa pb :
  Js.digits pa ≤ 53 → Js.digits pb ≤ 53 →
  match Js.digits pa - 53 ?= Js.digits pb - 53 with
  | Lt => Lt
  | Gt => Gt
  | Eq =>
      Pos.compare_cont Eq (Js.shl pa (Z.to_nat (53 - Js.digits pa)))
        (Js.shl pb (Z.to_nat (53 - Js.digits pb)))
  end
  = (Zpos pa ?= Zpos pb).
Proof.
  intros Ha Hb.
  pose proof (digits_bounds pa) as [Hla Hua].
  pose proof (digits_bounds pb) as [Hlb Hub].
  destruct (Z.compare_spec (Js.digits pa - 53) (Js.digits pb - 53)) as [Heq|Hlt|Hgt].
  - replace (Js.digits pb) with (Js.digits pa) by lia.
    change (Pos.compare_cont Eq ?x ?y) with (Zpos x ?= Zpos y).
    rewrite !shl_val.
    set (c := 2 ^ Z.of_nat (Z.to_nat (53 - Js.digits pa))).
    assert (0 < c) by (apply Z.pow_pos_nonneg; lia).
    destruct (Z.compare_spec (Zpos pa) (Zpos pb)) as [E|L|G].
    + rewrite E. apply Z.compare_refl.
    + apply Z.compare_lt_iff. nia.
    + apply Z.compare_gt_iff. nia.
  - symmetry. apply Z.compare_lt_iff.
    assert (2 ^ Js.digits pa ≤ 2 ^ (Js.digits pb - 1))
      by (apply Z.pow_le_mono_r; lia).
    lia.
  - symmetry. apply Z.compare_gt_iff.
    assert (2 ^ Js.digits pb ≤ 2 ^ (Js.digits pa - 1))
      by (apply Z.pow_le_mono_r; lia).
    lia.
Qed.

Lemma SFcompare_ofZ a b :
  Js.safe a → Js.safe b →
  SFcompare (Js.ofZ a) (Js.ofZ b) = Some (a ?= b).
Proof.
  intros Ha Hb. rewrite (ofZ_safe a Ha), (ofZ_safe b Hb).
  destruct a as [|pa|pa], b as [|pb|pb]; try reflexivity.
  - unfold Js.normal, SFcompare. f_equal.
    apply compare_normal; by apply safe_digits.
  - unfold Js.normal, SFcompare. f_equal.
    change (Zneg pa ?= Zneg pb) with (CompOpp (Zpos pa ?= Zpos pb)).
    rewrite <- (compare_normal pa pb) by (by apply safe_digits_neg).
    by destruct (Js.digits pa - 53 ?= Js.digits pb - 53).
Qed.

Lemma ofZ_ltb a b :
  Js.safe a → Js.safe b → Js.ltb (Js.ofZ a) (Js.ofZ b) = (a <? b).
Proof.
  intros Ha Hb. unfold Js.ltb, SFltb, Z.ltb.
  rewrite SFcompare_ofZ by done. by destruct (a ?= b).
Qed.

Lemma ofZ_leb a b :
  Js.safe a → Js.safe b → Js.leb (Js.ofZ a) (Js.ofZ b) = (a <=? b).
Proof.
  intros Ha Hb. unfold Js.leb, SFleb, Z.leb.
  rewrite SFcompare_ofZ by done. by destruct (a ?= b).
Qed.

Lemma ofZ_eqb a b :
  Js.safe a → Js.safe b → Js.eqb (Js.ofZ a) (Js.ofZ b) = (a =? b).
Proof.
  intros Ha Hb. unfold Js.eqb, SFeqb.
  rewrite SFcompare_ofZ by done.
  destruct (Z.compare_spec a b) as [->|H|H].
  - by rewrite Z.eqb_refl.
  - symmetry. apply Z.eqb_neq. lia.
  - symmetry. apply Z.eqb_neq. lia.
Qed.

Lemma ofZ_not_nan z : Js.safe z → Js.isNaN (Js.ofZ z) = false.
Proof. intros Hz. rewrite ofZ_safe by done. by destruct z. Qed.

(** ** Stock ledger *)

Lemma setStock_stock product s :
  Product.stock (Product.setStock product s) = s.
Proof. reflexivity. Qed.

Lemma setStock_id product :
  Product.setStock product (Product.stock product) = product.
Proof. by destruct product. Qed.

Lemma setStock_setStock product s s' :
  Product.setStock (Product.setStock product s) s' = Product.setStock product s'.
Proof. reflexivity. Qed.

Lemma reserve_None productId quantity (ps : gmap N Product.t) :
  ps !! productId = None →
  reserve productId quantity ps = (ps, inl (NotFound productId)).
Proof. intros H. unfold reserve. by rewrite H. Qed.

Lemma reserve_insufficient productId quantity (ps : gmap N Product.t) product :
  ps !! productId = Some product →
  Product.stock product < quantity →
  reserve productId quantity ps
  = (ps, inl (Insufficient (Product.name product) (Product.stock product))).
Proof.
  intros H Hlt. unfold reserve. rewrite H.
  by apply Z.ltb_lt in Hlt as ->.
Qed.

Lemma reserve_sufficient productId quantity (ps : gmap N Product.t) product :
  ps !! productId = Some product →
  quantity ≤ Product.stock product →
  reserve productId quantity ps
  = (<[productId :=
         Product.setStock product (Product.stock product - quantity)]> ps,
     inr (Product.setStock product (Product.stock product - quantity))).
Proof.
  intros H Hle. unfold reserve. rewrite H.
  by apply Z.ltb_ge in Hle as ->.
Qed.

(** C4.  [reserve] on a product that does not exist fails with [NotFound];
    on a product whose stock is below the quantity it fails with
    [Insufficient], reporting the available stock, and leaves the products
    (hence the stock) as they were; otherwise it succeeds, the stock of the
    product is decremented by exactly the quantity, its other fields and
    all other products are untouched. *)
Theorem reserve_spec (productId : ObjectId) (quantity : Z)
    (ps : gmap N Product.t) :
  match ps !! productId with
  | None => reserve productId quantity ps = (ps, inl (NotFound productId))
  | Some product =>
      if decide (Product.stock product < quantity)
      then
        reserve productId quantity ps
        = (ps, inl (Insufficient (Product.name product)
                      (Product.stock product)))
      else
        ∃ ps' product',
          reserve productId quantity ps = (ps', inr product')
          ∧ ps' !! productId = Some product'
          ∧ Product.stock product' = Product.stock product - quantity
          ∧ Product.name product' = Product.name product
          ∧ Product.price product' = Product.price product
          ∧ Product.image product' = Product.image product
          ∧ ∀ other, other ≠ productId → ps' !! other = ps !! other
  end.
Proof.
  destruct (ps !! productId) as [product|] eqn:Hp.
  - case_decide as Hlt.
    + by apply reserve_insufficient.
    + rewrite (reserve_sufficient _ _ _ product) by (done || lia).
      eexists _, _. split; [reflexivity|].
      split; [by rewrite lookup_insert_eq|].
      repeat split. intros other Hne. by rewrite lookup_insert_ne.
  - by apply reserve_None.
Qed.

Example reserve_examples :
  reserve 1%N 3 shelf
  = (<[1%N := Product.setStock productA 2]> shelf,
     inr (Product.setStock productA 2))
  ∧ reserve 2%N 10 shelf = (shelf, inl (Insufficient "B" 2))
  ∧ reserve 5%N 1 shelf = (shelf, inl (NotFound 5%N)).
Proof. by vm_compute. Qed.

Lemma restock_Some productId quantity (ps : gmap N Product.t) product :
  ps !! productId = Some product →
  restock productId quantity ps
  = <[productId :=
        Product.setStock product (Product.stock product + quantity)]> ps.
Proof. intros H. unfold restock. by rewrite H. Qed.

(** ** The stock mutations on doubles *)

Lemma double_setStock_id product :
  Double.setStock product (Double.stock product) = product.
Proof. by destruct product. Qed.

Lemma double_setStock_setStock product s s' :
  Double.setStock (Double.setStock product s) s' = Double.setStock product s'.
Proof. reflexivity. Qed.

(** On a product whose stock is the double of a safe integer, and for a
    quantity that is one, [Double.reserve] is [reserve]: the same test,
    and the stock saved is the double of the integer difference. *)
Lemma double_reserve_integers productId (s q : Z)
    (ps : gmap N Double.Product) product :
  ps !! productId = Some product →
  Double.stock product = Js.ofZ s →
  Js.safe s → Js.safe q → Js.safe (s - q) →
  Double.reserve productId (Js.ofZ q) ps
  = if s <? q
    then (ps, inl (Double.Insufficient (Double.name product) (Js.ofZ s)))
    else (<[productId := Double.setStock product (Js.ofZ (s - q))]> ps,
          inr (Double.setStock product (Js.ofZ (s - q)))).
Proof.
  intros Hp Hstock Hs Hq Hd. unfold Double.reserve.
  rewrite Hp, Hstock, ofZ_ltb by done.
  destruct (s <? q); [done|].
  cbn [Double.setStock Double.stock].
  by rewrite ofZ_sub, ofZ_not_nan by done.
Qed.

Lemma double_restock_integers productId (s q : Z)
    (ps : gmap N Double.Product) product :
  ps !! productId = Some product →
  Double.stock product = Js.ofZ s →
  Js.safe s → Js.safe q → Js.safe (s + q) →
  Double.restock productId (Js.ofZ q) ps
  = Some (<[productId := Double.setStock product (Js.ofZ (s + q))]> ps).
Proof.
  intros Hp Hstock Hs Hq Hd. unfold Double.restock.
  rewrite Hp, Hstock. cbn [Double.setStock Double.stock].
  by rewrite ofZ_add, ofZ_not_nan by done.
Qed.

(** The integer ledger is the ledger of the code on safe integers:
    [reserve] and [restock] commute with reading a product with an
    integer stock as the document that holds it. *)
Lemma reserve_refines productId (q : Z) (ps : gmap N Product.t) :
  Js.safe q →
  (∀ product,
     ps !! productId = Some product →
     Js.safe (Product.stock product) ∧ Js.safe (Product.stock product - q)) →
  Double.reserve productId (Js.ofZ q) (Double.ofProduct <$> ps)
  = match reserve productId q ps with
    | (ps', inl (NotFound id)) =>
        (Double.ofProduct <$> ps', inl (Double.NotFound id))
    | (ps', inl (Insufficient name available)) =>
        (Double.ofProduct <$> ps',
         inl (Double.Insufficient name (Js.ofZ available)))
    | (ps', inr product') =>
        (Double.ofProduct <$> ps', inr (Double.ofProduct product'))
    end.
Proof.
  intros Hq Hsafe. unfold reserve.
  destruct (ps !! productId) as [product|] eqn:Hp.
  - destruct (Hsafe product eq_refl) as [Hs Hd].
    rewrite (double_reserve_integers productId (Product.stock product) q
               _ (Double.ofProduct product));
      [|by rewrite lookup_fmap, Hp|done..].
    destruct (Product.stock product <? q); [done|].
    by rewrite fmap_insert.
  - unfold Double.reserve. by rewrite lookup_fmap, Hp.
Qed.

Lemma restock_refines productId (q : Z) (ps : gmap N Product.t) :
  Js.safe q →
  (∀ product,
     ps !! productId = Some product →
     Js.safe (Product.stock product) ∧ Js.safe (Product.stock product + q)) →
  Double.restock productId (Js.ofZ q) (Double.ofProduct <$> ps)
  = Some (Double.ofProduct <$> restock productId q ps).
Proof.
  intros Hq Hsafe. unfold restock.
  destruct (ps !! productId) as [product|] eqn:Hp.
  - destruct (Hsafe product eq_refl) as [Hs Hd].
    rewrite (double_restock_integers productId (Product.stock product) q
               _ (Double.ofProduct product));
      [|by rewrite lookup_fmap, Hp|done..].
    by rewrite fmap_insert.
  - unfold Double.restock. by rewrite lookup_fmap, Hp.
Qed.

(** X23.  On integers of magnitude below 2^53 the integer ledger is the
    ledger of the code: for a product whose stock is such an integer and
    a quantity that is one, with their difference (for [reserve]) and
    their sum (for [restock]) in the same range, the stock check, the
    decrement and the increment computed on doubles are those computed
    on the integers. *)
Theorem integer_ledger_refines (productId : ObjectId) (q : Z)
    (ps : gmap N Product.t) :
  Js.safe q →
  (∀ product,
     ps !! productId = Some product →
     Js.safe (Product.stock product)
     ∧ Js.safe (Product.stock product - q)
     ∧ Js.safe (Product.stock product + q)) →
  Double.reserve productId (Js.ofZ q) (Double.ofProduct <$> ps)
  = match reserve productId q ps with
    | (ps', inl (NotFound id)) =>
        (Double.ofProduct <$> ps', inl (Double.NotFound id))
    | (ps', inl (Insufficient name available)) =>
        (Double.ofProduct <$> ps',
         inl (Double.Insufficient name (Js.ofZ available)))
    | (ps', inr product') =>
        (Double.ofProduct <$> ps', inr (Double.ofProduct product'))
    end
  ∧ Double.restock productId (Js.ofZ q) (Double.ofProduct <$> ps)
    = Some (Double.ofProduct <$> restock productId q ps).
Proof.
  intros Hq Hsafe. split.
  - apply reserve_refines; [done|]. intros product Hp.
    by destruct (Hsafe product Hp) as (? & ? & ?).
  - apply restock_refines; [done|]. intros product Hp.
    by destruct (Hsafe product Hp) as (? & ? & ?).
Qed.

Lemma integer_ledger_refines_witness :
  Double.reserve 1%N (Js.ofZ 3) (Double.ofProduct <$> shelf)
  = (Double.ofProduct <$> <[1%N := Product.setStock productA 2]> shelf,
     inr (Double.ofProduct (Product.setStock productA 2)))
  ∧ Double.restock 1%N (Js.ofZ 3) (Double.ofProduct <$> shelf)
    = Some (Double.ofProduct <$> <[1%N := Product.setStock productA 8]> shelf).
Proof.
  apply (integer_ledger_refines 1%N 3 shelf).
  - unfold Js.safe. lia.
  - intros product Hp. replace product with productA by (by injection Hp).
    unfold Js.safe. simpl. lia.
Defined.

(** C8, counterexample.  A product has 3.9 in stock and the quantity is
    1.2.  The stock covers the quantity and [reserve] leaves 2.7; the
    [restock] of 1.2 right after it leaves 3.9000000000000004, which is
    not the stock before the pair. *)
Lemma reserve_restock_drifts :
  Double.stockOf looseGoods 5%N = Some (Js.decimal 39 10)
  ∧ (∃ ps' product' ps'',
       Double.reserve 5%N (Js.decimal 12 10) looseGoods = (ps', inr product')
       ∧ Double.stock product' = Js.decimal 27 10
       ∧ Double.restock 5%N (Js.decimal 12 10) ps' = Some ps''
       ∧ Double.stockOf ps'' 5%N = Some after39
       ∧ Js.eqb after39 (Js.decimal 39 10) = false)
  ∧ ¬ Double.roundTrip 5%N (Js.decimal 12 10) looseGoods.
Proof.
  assert (Double.reserve 5%N (Js.decimal 12 10) looseGoods
          = (<[5%N := Double.setStock productE (Js.decimal 27 10)]> looseGoods,
             inr (Double.setStock productE (Js.decimal 27 10)))) as Hreserve.
  { unfold Double.reserve, looseGoods. by rewrite lookup_singleton_eq. }
  assert (Double.restock 5%N (Js.decimal 12 10)
            (<[5%N := Double.setStock productE (Js.decimal 27 10)]> looseGoods)
          = Some (<[5%N := Double.setStock productE after39]>
                    (<[5%N := Double.setStock productE (Js.decimal 27 10)]>
                       looseGoods))) as Hrestock.
  { unfold Double.restock. by rewrite lookup_insert_eq. }
  split; [done|]. split.
  - eexists _, _, _. split; [exact Hreserve|]. split; [done|].
    split; [exact Hrestock|]. split; [|done].
    unfold Double.stockOf. by rewrite lookup_insert_eq.
  - intros Hround.
    destruct (Hround productE) as (ps' & product' & ps'' & s & Hres & Hrest
                                   & Hs & Heq); [done..|].
    rewrite Hreserve in Hres. injection Hres as <- <-.
    rewrite Hrestock in Hrest. injection Hrest as <-.
    unfold Double.stockOf in Hs. rewrite lookup_insert_eq in Hs.
    injection Hs as <-. discriminate Heq.
Qed.

(** C8, amended.  For a product whose stock is an integer and a quantity
    that is an integer, both and their difference of magnitude below
    2^53, with the stock covering the quantity: [reserve] succeeds and
    leaves the integer difference in stock, and the [restock] of the same
    quantity right after it gives back the products as they were before
    the pair, so the stock of the product is its old value. *)
Theorem reserve_restock_roundtrip (productId : ObjectId) (s q : Z)
    (ps : gmap N Double.Product) (product : Double.Product) :
  ps !! productId = Some product →
  Double.stock product = Js.ofZ s →
  Js.safe s → Js.safe q → Js.safe (s - q) →
  q ≤ s →
  (∃ ps' product',
     Double.reserve productId (Js.ofZ q) ps = (ps', inr product')
     ∧ Double.stock product' = Js.ofZ (s - q)
     ∧ Double.restock productId (Js.ofZ q) ps' = Some ps)
  ∧ Double.roundTrip productId (Js.ofZ q) ps.
Proof.
  intros Hp Hstock Hs Hq Hd Hle.
  assert (Double.reserve productId (Js.ofZ q) ps
          = (<[productId := Double.setStock product (Js.ofZ (s - q))]> ps,
             inr (Double.setStock product (Js.ofZ (s - q))))) as Hreserve.
  { rewrite (double_reserve_integers productId s q ps product) by done.
    by apply Z.ltb_ge in Hle as ->. }
  assert (Double.restock productId (Js.ofZ q)
            (<[productId := Double.setStock product (Js.ofZ (s - q))]> ps)
          = Some ps) as Hrestock.
  { rewrite (double_restock_integers productId (s - q) q _
               (Double.setStock product (Js.ofZ (s - q))));
      [|by rewrite lookup_insert_eq|done..|by replace (s - q + q) with s by lia].
    rewrite insert_insert_eq, double_setStock_setStock.
    replace (s - q + q) with s by lia.
    rewrite <- Hstock, double_setStock_id. by rewrite insert_id. }
  split.
  - by eexists _, _.
  - intros product0 Hp0 _ _.
    replace product0 with product by congruence.
    eexists _, _, ps, (Js.ofZ s). split; [exact Hreserve|].
    split; [exact Hrestock|].
    split; [unfold Double.stockOf; by rewrite Hp, <- Hstock|].
    rewrite Hstock, ofZ_eqb by done. apply Z.eqb_refl.
Qed.

Lemma reserve_restock_roundtrip_witness :
  Double.roundTrip 1%N (Js.ofZ 3) (Double.ofProduct <$> shelf).
Proof.
  refine (proj2 (reserve_restock_roundtrip 1%N 5 3
                   (Double.ofProduct <$> shelf) (Double.ofProduct productA)
                   _ _ _ _ _ _)).
  - reflexivity.
  - reflexivity.
  - unfold Js.safe. lia.
  - unfold Js.safe. lia.
  - unfold Js.safe. lia.
  - lia.
Defined.

(** ** Order placement: the line loop *)

Lemma stockOf_reserve_ok productId quantity (ps ps' : gmap N Product.t)
    product' other :
  reserve productId quantity ps = (ps', inr product') →
  stockOf ps' other
  = (λ s, s - (if decide (productId = other) then quantity else 0))
    <$> stockOf ps other.
Proof.
  unfold reserve, stockOf. intros H.
  destruct (ps !! productId) as [product|] eqn:Hp; [|done].
  destruct (Product.stock product <? quantity); [done|].
  injection H as <- <-. case_decide as Hd.
  - subst other. rewrite lookup_insert_eq, Hp. done.
  - rewrite lookup_insert_ne by done.
    destruct (ps !! other); simpl; [|done]. f_equal. lia.
Qed.

Lemma reserve_failed productId quantity (ps ps' : gmap N Product.t) e :
  reserve productId quantity ps = (ps', inl e) → ps' = ps.
Proof.
  unfold reserve. intros H.
  destruct (ps !! productId) as [product|]; [|by injection H].
  destruct (Product.stock product <? quantity); by injection H.
Qed.

(** A failed loop stops at the first line that cannot be reserved; the
    lines before it stay deducted. *)
Lemma processItems_failed cartItems : ∀ (ps ps' : gmap N Product.t) acc total r,
  processItems cartItems ps acc total = (ps', inl r) →
  ∃ pre item post e,
    cartItems = pre ++ item :: post
    ∧ reserve (CartItem.productId item) (CartItem.quantity item) ps'
      = (ps', inl e)
    ∧ r = reserveFailure e
    ∧ ∀ productId,
        stockOf ps' productId
        = (λ s, s - reserved pre productId) <$> stockOf ps productId.
Proof.
  induction cartItems as [|item rest IH]; intros ps ps' acc total r H;
    simpl in H; [done|].
  destruct (reserve _ _ ps) as [ps1 [e|product']] eqn:Hres.
  - injection H as <- <-.
    pose proof (reserve_failed _ _ _ _ _ Hres) as ->.
    exists [], item, rest, e. repeat split; [done|].
    intros productId. simpl. destruct (stockOf ps productId); simpl; [|done].
    f_equal. lia.
  - apply IH in H as (pre & item' & post & e & -> & Hfail & -> & Hstock).
    exists (item :: pre), item', post, e. repeat split; [done|].
    intros productId. rewrite Hstock.
    rewrite (stockOf_reserve_ok _ _ _ _ _ productId Hres).
    destruct (stockOf ps productId); simpl; [|done]. f_equal. lia.
Qed.

Lemma lineFailure_inv r :
  lineFailure r →
  (∃ productId, r = mkResponse 404 (ProductNotFound productId))
  ∨ (∃ name available, r = mkResponse 400 (InsufficientStock name available)).
Proof. intros [[productId|name available] ->]; simpl; eauto. Qed.

Ltac not_line_failure H :=
  apply lineFailure_inv in H as [[? H]|(? & ? & H)]; discriminate H.

(** ** Order placement is not all-or-nothing *)

(** C1, counterexample.  A has stock 5 and B has stock 2; the cart asks 3 of
    A and 10 of B.  The placement fails on B with insufficient stock and no
    order is stored, but A is left with stock 2. *)
Lemma placeOrder_not_allOrNothing :
  ¬ allOrNothing (OrderRoutes.placeOrder 7%N "COD") overdrawnCart shop.
Proof.
  intros H. destruct H as [_ H].
  - by exists (Insufficient "B" 2).
  - specialize (H 1%N). vm_compute in H. discriminate H.
Qed.

(** C1, amended.  In both revisions of the route, when the placement
    reports a failed line (product not found, or insufficient stock), no
    order is stored and the users are untouched; the failing line itself
    changes no product; but each product is left with its stock lowered by
    the quantities of the lines that precede the failing one. *)
Theorem placeOrder_line_failure (place : list CartItem.t → Db → Db * Response)
    (userId : ObjectId) (paymentMethod : string)
    (cartItems : list CartItem.t) (db : Db) :
  place = OrderRoutes.placeOrder userId paymentMethod
  ∨ place = BackendOrderRoutes.placeOrder userId paymentMethod →
  lineFailure (place cartItems db).2 →
  orders (place cartItems db).1 = orders db
  ∧ users (place cartItems db).1 = users db
  ∧ ∃ pre item post e,
      cartItems = pre ++ item :: post
      ∧ (place cartItems db).2 = reserveFailure e
      ∧ reserve (CartItem.productId item) (CartItem.quantity item)
          (products (place cartItems db).1)
        = (products (place cartItems db).1, inl e)
      ∧ ∀ productId,
          stockOf (products (place cartItems db).1) productId
          = (λ s, s - reserved pre productId)
            <$> stockOf (products db) productId.
Proof.
  intros [-> | ->];
    unfold OrderRoutes.placeOrder, BackendOrderRoutes.placeOrder;
    (destruct (users db !! userId) as [user|]; [|intros H; not_line_failure H]);
    [destruct (OrderRoutes.unusableAddress _); [intros H; not_line_failure H|] |];
    (destruct cartItems as [|item0 rest0]; [intros H; not_line_failure H|]);
    (destruct (processItems (item0 :: rest0) (products db) [] Js.zero)
       as [ps [r|[items total]]] eqn:Hloop;
     [| destruct (validOrder _); intros H; not_line_failure H]);
    intros _; simpl;
    apply processItems_failed in Hloop
      as (pre & item & post & e & Hcart & Hfail & -> & Hstock);
    (split; [done|]); (split; [done|]);
    exists pre, item, post, e; by rewrite Hcart.
Qed.

Lemma placeOrder_line_failure_witness :
  orders (OrderRoutes.placeOrder 7%N "COD" overdrawnCart shop).1 = orders shop
  ∧ stockOf (products (OrderRoutes.placeOrder 7%N "COD" overdrawnCart shop).1)
      1%N = Some 2.
Proof.
  destruct (placeOrder_line_failure (OrderRoutes.placeOrder 7%N "COD")
              7%N "COD" overdrawnCart shop)
    as (Horders & _ & _).
  - by left.
  - by exists (Insufficient "B" 2).
  - split; [exact Horders | reflexivity].
Defined.

(** ** Order placement: a completed loop *)

(** When every line is reserved, the loop has appended one snapshot per
    cart line, with the line's product and quantity, and has added their
    amounts to the running total in line order. *)
Lemma processItems_ok cartItems : ∀ (ps ps' : gmap N Product.t) acc total items total',
  processItems cartItems ps acc total = (ps', inr (items, total')) →
  ∃ new,
    items = acc ++ new
    ∧ total' = fold_left addLine new total
    ∧ OrderItem.quantity <$> new = CartItem.quantity <$> cartItems
    ∧ OrderItem.productId <$> new = CartItem.productId <$> cartItems
    ∧ ∀ productId,
        stockOf ps' productId
        = (λ s, s - reserved cartItems productId) <$> stockOf ps productId.
Proof.
  induction cartItems as [|item rest IH]; intros ps ps' acc total items total' H;
    simpl in H.
  - injection H as <- <- <-. exists []. rewrite app_nil_r.
    repeat split. intros productId. simpl.
    destruct (stockOf ps productId); simpl; [|done]. f_equal. lia.
  - destruct (reserve _ _ ps) as [ps1 [e|product']] eqn:Hres; [done|].
    apply IH in H as (new & -> & -> & Hq & Hp & Hstock).
    exists (snapshot item product' :: new).
    rewrite <- app_assoc. rewrite !fmap_cons, Hq, Hp.
    repeat split. intros productId. rewrite Hstock.
    rewrite (stockOf_reserve_ok _ _ _ _ _ productId Hres).
    destruct (stockOf ps productId); simpl; [|done]. f_equal. lia.
Qed.

Lemma validItem_quantity item : validItem item = true → 1 ≤ OrderItem.quantity item.
Proof.
  unfold validItem. rewrite !andb_true_iff. intros [[_ H] _]. lia.
Qed.

Lemma validOrder_quantities order item :
  validOrder order = true → item ∈ Order.items order →
  1 ≤ OrderItem.quantity item.
Proof.
  unfold validOrder. rewrite !andb_true_iff. intros [[[[H _] _] _] _] Hin.
  rewrite forallb_forall in H. apply validItem_quantity, H.
  by apply list_elem_of_In.
Qed.

(** The schema rejects an order as soon as one line has a quantity below 1. *)
Lemma validOrder_nonpositive order :
  Exists (λ q, q ≤ 0) (OrderItem.quantity <$> Order.items order) →
  validOrder order = false.
Proof.
  intros Hex. apply not_true_is_false. intros Hvalid.
  apply Exists_exists in Hex as (q & Hin & Hq).
  apply list_elem_of_fmap in Hin as (item & -> & Hin).
  pose proof (validOrder_quantities _ _ Hvalid Hin). lia.
Qed.

(** ** Quantities are not validated before the stock is written *)

(** Whatever the cart, if the loop reserves every line and one line asks a
    quantity of zero or less, the products stay as the loop saved them,
    the save of the order is rejected and nothing else is stored. *)
Lemma placeOrder_nonpositive_line (place : list CartItem.t → Db → Db * Response)
    userId paymentMethod user cartItems db ps' items total :
  (place = OrderRoutes.placeOrder userId paymentMethod
   ∧ OrderRoutes.unusableAddress (User.address user) = false)
  ∨ place = BackendOrderRoutes.placeOrder userId paymentMethod →
  users db !! userId = Some user →
  processItems cartItems (products db) [] Js.zero = (ps', inr (items, total)) →
  Exists (λ item, CartItem.quantity item ≤ 0) cartItems →
  place cartItems db = (withProducts db ps', mkResponse 500 ServerError).
Proof.
  intros Hplace Huser Hloop Hex.
  assert (validOrder_false : ∀ address,
    validOrder (newOrder userId items (Js.toFixed2 total) paymentMethod
                  address "pending") = false).
  { intros address. apply validOrder_nonpositive.
    apply processItems_ok in Hloop as (new & -> & _ & Hq & _).
    cbn [newOrder Order.items app]. rewrite Hq.
    apply Exists_fmap. exact Hex. }
  destruct cartItems as [|item rest]; [by apply Exists_nil in Hex|].
  destruct Hplace as [[-> Haddr] | ->];
    unfold OrderRoutes.placeOrder, BackendOrderRoutes.placeOrder;
    rewrite Huser, ?Haddr, Hloop, validOrder_false; reflexivity.
Qed.

(** C10.  In both revisions of the route, a cart line for an existing
    product with stock [s ≥ 0] and a quantity [q ≤ 0] passes the stock
    check and the product is saved with stock [s - q]; placing that line
    then ends in the server error raised by the rejected save of the order
    (quantity below the schema minimum), with no order stored and the
    product still at [s - q].  The same holds of any cart whose lines are
    all reserved and one of which has such a quantity: the products stay
    as the loop saved them. *)
Theorem nonpositive_quantity_unvalidated
    (place : list CartItem.t → Db → Db * Response)
    (userId : ObjectId) (paymentMethod : string) (user : User.t)
    (productId : ObjectId) (product : Product.t) (quantity : Z) (db : Db) :
  (place = OrderRoutes.placeOrder userId paymentMethod
   ∧ OrderRoutes.unusableAddress (User.address user) = false)
  ∨ place = BackendOrderRoutes.placeOrder userId paymentMethod →
  users db !! userId = Some user →
  products db !! productId = Some product →
  0 ≤ Product.stock product →
  quantity ≤ 0 →
  let product' :=
    Product.setStock product (Product.stock product - quantity) in
  (Product.stock product <? quantity) = false
  ∧ reserve productId quantity (products db)
    = (<[productId := product']> (products db), inr product')
  ∧ place [CartItem.mk productId quantity] db
    = (withProducts db (<[productId := product']> (products db)),
       mkResponse 500 ServerError)
  ∧ orders (place [CartItem.mk productId quantity] db).1 = orders db
  ∧ stockOf (products (place [CartItem.mk productId quantity] db).1) productId
    = Some (Product.stock product - quantity)
  ∧ ∀ cartItems ps' items total,
      processItems cartItems (products db) [] Js.zero = (ps', inr (items, total)) →
      Exists (λ item, CartItem.quantity item ≤ 0) cartItems →
      place cartItems db = (withProducts db ps', mkResponse 500 ServerError).
Proof.
  intros Hplace Huser Hproduct Hstock Hq product'.
  assert (reserve productId quantity (products db)
          = (<[productId := product']> (products db), inr product')) as Hres
    by (apply reserve_sufficient; [done | lia]).
  assert (place [CartItem.mk productId quantity] db
          = (withProducts db (<[productId := product']> (products db)),
             mkResponse 500 ServerError)) as Hplaced.
  { eapply placeOrder_nonpositive_line; [done..| |].
    - simpl. rewrite Hres. reflexivity.
    - by apply Exists_cons_hd. }
  rewrite Hplaced. split; [apply Z.ltb_ge; lia|].
  repeat split; [done| |].
  - unfold stockOf. simpl. by rewrite lookup_insert_eq.
  - intros cartItems ps' items total Hloop Hex.
    by eapply placeOrder_nonpositive_line.
Qed.

Lemma nonpositive_quantity_unvalidated_witness :
  BackendOrderRoutes.placeOrder 7%N "COD" [CartItem.mk 1%N (-4)] shop
  = (withProducts shop (<[1%N := Product.setStock productA 9]> shelf),
     mkResponse 500 ServerError).
Proof.
  refine (proj1 (proj2 (proj2
    (nonpositive_quantity_unvalidated
       (BackendOrderRoutes.placeOrder 7%N "COD") 7%N "COD" alice
       1%N productA (-4) shop _ _ _ _ _)))).
  - by right.
  - reflexivity.
  - reflexivity.
  - simpl. lia.
  - lia.
Defined.

(** ** The stored total of an order *)

(** What a placement does to the order collection: nothing, or one order
    appended, and then the response carries that order. *)
Lemma placeOrder_orders (place : list CartItem.t → Db → Db * Response)
    userId paymentMethod cartItems db :
  place = OrderRoutes.placeOrder userId paymentMethod
  ∨ place = BackendOrderRoutes.placeOrder userId paymentMethod →
  (orders (place cartItems db).1 = orders db
   ∧ ∀ order, (place cartItems db).2 ≠ mkResponse 201 (OrderPlaced order))
  ∨ ∃ ps items total user,
      users db !! userId = Some user
      ∧ processItems cartItems (products db) [] Js.zero = (ps, inr (items, total))
      ∧ let order :=
          newOrder userId items (Js.toFixed2 total) paymentMethod
            (User.address user) "pending" in
        validOrder order = true
        ∧ products (place cartItems db).1 = ps
        ∧ orders (place cartItems db).1 = orders db ++ [order]
        ∧ (place cartItems db).2 = mkResponse 201 (OrderPlaced order).
Proof.
  intros [-> | ->];
    unfold OrderRoutes.placeOrder, BackendOrderRoutes.placeOrder;
    (destruct (users db !! userId) as [user|] eqn:Huser; [|by left]);
    [destruct (OrderRoutes.unusableAddress _); [by left|] |];
    (destruct cartItems as [|item0 rest0]; [by left|]);
    (destruct (processItems (item0 :: rest0) (products db) [] Js.zero)
       as [ps [r|[items total]]] eqn:Hloop;
     [left; split; [done|]; intros order Heq; simpl in Heq;
      apply processItems_failed in Hloop as (_ & _ & _ & [] & _ & _ & -> & _);
      discriminate Heq |]);
    (destruct (validOrder _) eqn:Hvalid; [|by left]);
    right; exists ps, items, total, user; done.
Qed.

Lemma itemsTotal_processItems cartItems (ps ps' : gmap N Product.t) items total :
  processItems cartItems ps [] Js.zero = (ps', inr (items, total)) →
  total = itemsTotal items.
Proof.
  intros H. by apply processItems_ok in H as (new & -> & -> & _).
Qed.

(** No request changes the line snapshots or the total of a stored order. *)
Lemma apply_keeps_order op db (id : nat) order :
  orders db !! id = Some order →
  ∃ order',
    orders (apply db op) !! id = Some order'
    ∧ Order.items order' = Order.items order
    ∧ Order.totalAmount order' = Order.totalAmount order.
Proof.
  intros Hid.
  assert (Hset : ∀ id' other status,
    orders db !! id' = Some other →
    ∃ order',
      <[id' := Order.setStatus other status]> (orders db) !! id = Some order'
      ∧ Order.items order' = Order.items order
      ∧ Order.totalAmount order' = Order.totalAmount order).
  { intros id' other status Hother. destruct (decide (id' = id)) as [->|Hne].
    - exists (Order.setStatus order status).
      rewrite list_lookup_insert_eq by (by eapply lookup_lt_Some).
      replace other with order by congruence. done.
    - exists order. by rewrite list_lookup_insert_ne. }
  assert (Hplace : ∀ place userId paymentMethod cartItems,
    place = OrderRoutes.placeOrder userId paymentMethod
    ∨ place = BackendOrderRoutes.placeOrder userId paymentMethod →
    ∃ order',
      orders (place cartItems db).1 !! id = Some order'
      ∧ Order.items order' = Order.items order
      ∧ Order.totalAmount order' = Order.totalAmount order).
  { intros place userId paymentMethod cartItems Hp. exists order.
    destruct (placeOrder_orders place userId paymentMethod cartItems db Hp)
      as [[-> _] | (ps & items & total & user & _ & _ & _ & _ & -> & _)];
      [done|].
    by rewrite lookup_app_l by (by eapply lookup_lt_Some). }
  destruct op as [userId pm cart | id' status | userId pm cart | id' status
                 | pid name price image stock]; simpl.
  - eapply Hplace. by left.
  - unfold OrderRoutes.updateStatus.
    destruct (orders db !! id') as [other|] eqn:Hother; [|by exists order].
    destruct (negb _); [by exists order|].
    destruct (_ && _); [by apply Hset|].
    destruct (_ && _); [by exists order | by apply Hset].
  - eapply Hplace. by right.
  - unfold BackendOrderRoutes.updateStatus.
    destruct (orders db !! id') as [other|] eqn:Hother; [|by exists order].
    destruct (negb _); [by exists order | by apply Hset].
  - unfold ProductRoutes.updateProduct.
    destruct (products db !! pid); [destruct (_ && _)|]; by exists order.
Qed.

Lemma run_keeps_order ops : ∀ db (id : nat) order,
  orders db !! id = Some order →
  ∃ order',
    orders (run ops db) !! id = Some order'
    ∧ Order.items order' = Order.items order
    ∧ Order.totalAmount order' = Order.totalAmount order.
Proof.
  induction ops as [|op ops IH]; intros db id order Hid; [by exists order|].
  destruct (apply_keeps_order op db id order Hid) as (order1 & H1 & <- & <-).
  by apply IH.
Qed.

(** C6, counterexample.  One unit of a product priced 1.0625 is ordered:
    the order is stored with total 1.06, while its only line snapshot
    amounts to 1.0625. *)
Lemma placeOrder_total_not_sum :
  (OrderRoutes.placeOrder 7%N "COD" [CartItem.mk 3%N 1] cornerShop).2
  = mkResponse 201 (OrderPlaced orderOfC)
  ∧ Order.totalAmount orderOfC = Js.decimal 106 100
  ∧ itemsTotal (Order.items orderOfC) = Js.decimal 10625 10000
  ∧ ¬ totalMatchesItems orderOfC.
Proof.
  split; [by vm_compute|]. split; [by vm_compute|]. split; [by vm_compute|].
  unfold totalMatchesItems. by vm_compute.
Qed.

(** C6, amended.  In both revisions of the route, the total stored with a
    placed order is the sum of price times quantity over its line
    snapshots, added up in line order in the arithmetic of doubles and
    then rounded to two decimal places by [toFixed(2)]; and after any
    later sequence of placements, status updates and product updates
    (price changes included) the order is still stored under its id with
    the same line snapshots and the same total. *)
Theorem placeOrder_total (place : list CartItem.t → Db → Db * Response)
    (userId : ObjectId) (paymentMethod : string)
    (cartItems : list CartItem.t) (db db' : Db) (order : Order.t) :
  place = OrderRoutes.placeOrder userId paymentMethod
  ∨ place = BackendOrderRoutes.placeOrder userId paymentMethod →
  place cartItems db = (db', mkResponse 201 (OrderPlaced order)) →
  Order.totalAmount order = Js.toFixed2 (itemsTotal (Order.items order))
  ∧ orders db' !! length (orders db) = Some order
  ∧ ∀ ops, ∃ order',
      orders (run ops db') !! length (orders db) = Some order'
      ∧ Order.items order' = Order.items order
      ∧ Order.totalAmount order' = Order.totalAmount order
      ∧ Order.totalAmount order'
        = Js.toFixed2 (itemsTotal (Order.items order')).
Proof.
  intros Hplace Hplaced.
  destruct (placeOrder_orders place userId paymentMethod cartItems db Hplace)
    as [[_ Hne] | (ps & items & total & user & _ & Hloop & _ & _ & Horders & Hresp)].
  { rewrite Hplaced in Hne. by destruct (Hne order). }
  rewrite Hplaced in Horders, Hresp. simpl in Horders, Hresp.
  injection Hresp as ->.
  apply itemsTotal_processItems in Hloop as ->.
  assert (orders db' !! length (orders db)
          = Some (newOrder userId items (Js.toFixed2 (itemsTotal items))
                    paymentMethod (User.address user) "pending")) as Hstored.
  { rewrite Horders. by apply list_lookup_middle. }
  split; [done|]. split; [done|].
  intros ops.
  destruct (run_keeps_order ops db' _ _ Hstored) as (order' & H' & Hitems & Htotal).
  exists order'. split; [done|]. split; [done|]. split; [done|].
  by rewrite Htotal, Hitems.
Qed.

Lemma placeOrder_total_witness :
  Order.totalAmount orderOfC
  = Js.toFixed2 (itemsTotal (Order.items orderOfC)).
Proof.
  refine (proj1 (placeOrder_total (OrderRoutes.placeOrder 7%N "COD")
                   7%N "COD" [CartItem.mk 3%N 1] cornerShop
                   (OrderRoutes.placeOrder 7%N "COD"
                      [CartItem.mk 3%N 1] cornerShop).1
                   orderOfC _ _)).
  - by left.
  - by vm_compute.
Defined.

(** ** Stock never goes negative *)

Lemma reserve_nonneg productId quantity (ps : gmap N Product.t) :
  map_Forall (λ _ product, 0 ≤ Product.stock product) ps →
  map_Forall (λ _ product, 0 ≤ Product.stock product)
    (reserve productId quantity ps).1.
Proof.
  intros Hps. unfold reserve.
  destruct (ps !! productId) as [product|] eqn:Hp; [|done].
  destruct (Z.ltb_spec (Product.stock product) quantity); [done|].
  simpl. apply map_Forall_insert_2; [simpl; lia | done].
Qed.

Lemma processItems_nonneg cartItems : ∀ (ps : gmap N Product.t) acc total,
  map_Forall (λ _ product, 0 ≤ Product.stock product) ps →
  map_Forall (λ _ product, 0 ≤ Product.stock product)
    (processItems cartItems ps acc total).1.
Proof.
  induction cartItems as [|item rest IH]; intros ps acc total Hps; [done|].
  simpl.
  pose proof (reserve_nonneg (CartItem.productId item)
                (CartItem.quantity item) ps Hps) as Hres.
  destruct (reserve _ _ ps) as [ps1 [e|product']]; [done|].
  by apply IH.
Qed.

Lemma restock_nonneg productId quantity (ps : gmap N Product.t) :
  0 ≤ quantity →
  map_Forall (λ _ product, 0 ≤ Product.stock product) ps →
  map_Forall (λ _ product, 0 ≤ Product.stock product)
    (restock productId quantity ps).
Proof.
  intros Hq Hps. unfold restock.
  destruct (ps !! productId) as [product|] eqn:Hp; [|done].
  apply map_Forall_insert_2; [|done].
  specialize (Hps _ _ Hp). simpl in *. lia.
Qed.

Lemma restockItems_nonneg items : ∀ ps : gmap N Product.t,
  (∀ item, item ∈ items → 1 ≤ OrderItem.quantity item) →
  map_Forall (λ _ product, 0 ≤ Product.stock product) ps →
  map_Forall (λ _ product, 0 ≤ Product.stock product) (restockItems items ps).
Proof.
  induction items as [|item rest IH]; intros ps Hq Hps; [done|].
  simpl. apply IH.
  - intros item' Hin. apply Hq. by right.
  - apply restock_nonneg; [|done].
    assert (1 ≤ OrderItem.quantity item) by (apply Hq; by left). lia.
Qed.

Lemma quantitiesValid_insert db (id : nat) order status ps us :
  quantitiesValid db →
  orders db !! id = Some order →
  quantitiesValid
    {| products := ps;
       orders := <[id := Order.setStatus order status]> (orders db);
       users := us |}.
Proof.
  intros Hq Hid order' item Hin Hitem. simpl in Hin.
  apply list_elem_of_lookup in Hin as [i Hi].
  destruct (decide (id = i)) as [->|Hne].
  - rewrite list_lookup_insert_eq in Hi by (by eapply lookup_lt_Some).
    injection Hi as <-. apply (Hq order); [|done].
    by eapply list_elem_of_lookup_2.
  - rewrite list_lookup_insert_ne in Hi by done.
    apply (Hq order'); [|done]. by eapply list_elem_of_lookup_2.
Qed.

(** Each core request keeps the stocks non-negative and the stored order
    lines within the schema. *)
Lemma apply_invariant op db :
  coreOp op → stocksNonneg db → quantitiesValid db →
  stocksNonneg (apply db op) ∧ quantitiesValid (apply db op).
Proof.
  intros Hcore Hstock Hq.
  assert (Hplace : ∀ place userId paymentMethod cartItems,
    place = OrderRoutes.placeOrder userId paymentMethod
    ∨ place = BackendOrderRoutes.placeOrder userId paymentMethod →
    stocksNonneg (place cartItems db).1 ∧ quantitiesValid (place cartItems db).1).
  { intros place userId paymentMethod cartItems Hp.
    pose proof (processItems_nonneg cartItems (products db) [] Js.zero Hstock)
      as Hloop.
    assert (products (place cartItems db).1 = products db
            ∨ products (place cartItems db).1
              = (processItems cartItems (products db) [] Js.zero).1) as Hps.
    { destruct Hp as [-> | ->];
        unfold OrderRoutes.placeOrder, BackendOrderRoutes.placeOrder;
        (destruct (users db !! userId); [|by left]);
        [destruct (OrderRoutes.unusableAddress _); [by left|] |];
        (destruct cartItems; [by left|]);
        (destruct (processItems _ _ _ _) as [ps [r|[items total]]];
         [by right|]);
        destruct (validOrder _); by right. }
    split.
    - unfold stocksNonneg. by destruct Hps as [-> | ->].
    - destruct (placeOrder_orders place userId paymentMethod cartItems db Hp)
        as [[Ho _] | (ps & items & total & user & _ & _ & Hvalid & _ & Ho & _)];
        unfold quantitiesValid; rewrite Ho; [done|].
      intros order item Hin Hitem.
      apply elem_of_app in Hin as [Hin|Hin]; [by eapply Hq|].
      apply list_elem_of_singleton in Hin as ->.
      by eapply validOrder_quantities. }
  destruct op as [userId pm cart | id status | userId pm cart | id status
                 | pid name price image stock]; simpl; [| | | |done].
  - apply (Hplace _ userId pm). by left.
  - unfold OrderRoutes.updateStatus.
    destruct (orders db !! id) as [order|] eqn:Hid; [|done].
    destruct (negb _); [done|].
    destruct (_ && _).
    + split; [|by apply quantitiesValid_insert].
      unfold stocksNonneg. simpl. apply restockItems_nonneg; [|done].
      intros item Hitem. apply (Hq order); [|done].
      by eapply list_elem_of_lookup_2.
    + destruct (_ && _); [done|].
      split; [done | by apply quantitiesValid_insert].
  - apply (Hplace _ userId pm). by right.
  - unfold BackendOrderRoutes.updateStatus.
    destruct (orders db !! id) as [order|] eqn:Hid; [|done].
    destruct (negb _); [done|].
    split; [done | by apply quantitiesValid_insert].
Qed.

Lemma run_invariant ops : ∀ db,
  Forall coreOp ops → stocksNonneg db → quantitiesValid db →
  stocksNonneg (run ops db) ∧ quantitiesValid (run ops db).
Proof.
  induction ops as [|op ops IH]; intros db Hcore Hstock Hq; [done|].
  apply Forall_cons in Hcore as [Hop Hcore].
  destruct (apply_invariant op db Hop Hstock Hq). by apply IH.
Qed.

(** C5.  Start from a database in which every stock is non-negative (and
    the stored orders respect the Order schema, quantity at least 1 on
    every line).  Along any sequence of placements and status updates, of
    either revision of the routes, every stock is non-negative after each
    request of the sequence. *)
Theorem stock_never_negative (ops : list Op) (db : Db) :
  Forall coreOp ops →
  stocksNonneg db →
  quantitiesValid db →
  ∀ n, stocksNonneg (run (take n ops) db).
Proof.
  intros Hcore Hstock Hq n.
  apply run_invariant; [|done..]. by apply Forall_take.
Qed.

Lemma stocksNonneg_shop : stocksNonneg shop.
Proof.
  unfold stocksNonneg, shop, shelf. simpl.
  apply map_Forall_insert_2; [simpl; lia|].
  apply map_Forall_insert_2; [simpl; lia|].
  apply map_Forall_empty.
Defined.

Lemma stock_never_negative_witness :
  stocksNonneg (run (take 4 sampleOps) shop).
Proof.
  apply (stock_never_negative sampleOps shop).
  - repeat constructor.
  - exact stocksNonneg_shop.
  - intros order item Hin. simpl in Hin. by apply elem_of_nil in Hin.
Defined.

(** ** Status updates of the revision with stock reversal *)

Lemma includes_cancelled : includes validStatuses "cancelled" = true.
Proof. reflexivity. Qed.

Lemma stockOf_restock productId quantity (ps : gmap N Product.t) other :
  stockOf (restock productId quantity ps) other
  = (λ s, s + (if decide (productId = other) then quantity else 0))
    <$> stockOf ps other.
Proof.
  unfold restock, stockOf.
  destruct (ps !! productId) as [product|] eqn:Hp.
  - case_decide as Hd.
    + subst other. by rewrite lookup_insert_eq, Hp.
    + rewrite lookup_insert_ne by done.
      destruct (ps !! other); simpl; [|done]. f_equal. lia.
  - case_decide as Hd.
    + subst other. by rewrite Hp.
    + destruct (ps !! other); simpl; [|done]. f_equal. lia.
Qed.

(** The restock loop credits each product with the quantities of all the
    lines that name it, each line once. *)
Lemma stockOf_restockItems items : ∀ (ps : gmap N Product.t) productId,
  stockOf (restockItems items ps) productId
  = (λ s, s + credited items productId) <$> stockOf ps productId.
Proof.
  induction items as [|item rest IH]; intros ps productId; simpl.
  - destruct (stockOf ps productId); simpl; [|done]. f_equal. lia.
  - unfold restockItems in IH. rewrite IH, stockOf_restock.
    destruct (stockOf ps productId); simpl; [|done]. f_equal. lia.
Qed.

(** First cancellation: every line is restocked and the order becomes
    cancelled. *)
Lemma updateStatus_cancel (id : nat) db order :
  orders db !! id = Some order →
  isCancelled order = false →
  OrderRoutes.updateStatus id "cancelled" db
  = ({| products := restockItems (Order.items order) (products db);
        orders := <[id := Order.setStatus order "cancelled"]> (orders db);
        users := users db |},
     mkResponse 200 (StatusUpdated (Order.setStatus order "cancelled"))).
Proof.
  unfold isCancelled, OrderRoutes.updateStatus. intros -> Hst.
  rewrite includes_cancelled. simpl. by rewrite Hst.
Qed.

(** Cancelling a cancelled order again changes nothing. *)
Lemma updateStatus_cancel_again (id : nat) db order :
  orders db !! id = Some order →
  isCancelled order = true →
  OrderRoutes.updateStatus id "cancelled" db
  = (db, mkResponse 200 (StatusUpdated order)).
Proof.
  unfold isCancelled, OrderRoutes.updateStatus. intros Hid Hst.
  rewrite Hid, includes_cancelled. simpl. rewrite Hst. simpl.
  apply String.eqb_eq in Hst.
  assert (Order.setStatus order "cancelled" = order) as ->
    by (destruct order; simpl in *; by subst).
  rewrite list_insert_id by done. by destruct db.
Qed.

(** A cancelled order rejects every other recognised status, and an
    unrecognised status is rejected whatever the order. *)
Lemma updateStatus_cancelled_terminal (id : nat) status db order :
  orders db !! id = Some order →
  isCancelled order = true →
  status ≠ "cancelled" →
  OrderRoutes.updateStatus id status db
  = (db, mkResponse 400
           (if includes validStatuses status
            then InvalidTransition else InvalidStatus)).
Proof.
  unfold isCancelled, OrderRoutes.updateStatus. intros -> Hst Hne.
  destruct (includes validStatuses status); simpl; [|done].
  apply String.eqb_neq in Hne. by rewrite Hne, Hst.
Qed.

(** One status update, seen from the order it addresses: the line
    snapshots stay, the order is cancelled afterwards exactly if it was
    before or [cancelled] was requested, and the products are restocked
    exactly if the order was not cancelled and [cancelled] was requested. *)
Lemma updateStatus_step (id : nat) status db order :
  orders db !! id = Some order →
  ∃ order1,
    orders (OrderRoutes.updateStatus id status db).1 !! id = Some order1
    ∧ Order.items order1 = Order.items order
    ∧ isCancelled order1 = isCancelled order || String.eqb status "cancelled"
    ∧ products (OrderRoutes.updateStatus id status db).1
      = if negb (isCancelled order) && String.eqb status "cancelled"
        then restockItems (Order.items order) (products db)
        else products db.
Proof.
  intros Hid.
  assert (id < length (orders db))%nat as Hlt by (by eapply lookup_lt_Some).
  destruct (String.eqb_spec status "cancelled") as [->|Hne].
  - destruct (isCancelled order) eqn:Hst.
    + rewrite (updateStatus_cancel_again _ _ _ Hid Hst). by exists order.
    + rewrite (updateStatus_cancel _ _ _ Hid Hst).
      exists (Order.setStatus order "cancelled"). simpl.
      by rewrite list_lookup_insert_eq.
  - unfold OrderRoutes.updateStatus. rewrite Hid.
    apply String.eqb_neq in Hne. rewrite Hne, !andb_false_r.
    destruct (includes validStatuses status); cbn [negb andb];
      [|exists order; by rewrite orb_false_r].
    rewrite andb_true_r.
    fold (isCancelled order). destruct (isCancelled order) eqn:Hst; simpl.
    + by exists order.
    + exists (Order.setStatus order status). simpl.
      rewrite list_lookup_insert_eq by done. unfold isCancelled. simpl.
      by rewrite Hne.
Qed.

(** Over any sequence of status updates of one order, each product is
    credited with the quantities of the order's lines once if the order
    was not cancelled at the start and the sequence asks for [cancelled],
    and not at all otherwise. *)
Lemma updateStatuses_stock (id : nat) statuses : ∀ db order productId,
  orders db !! id = Some order →
  stockOf (products (updateStatuses id statuses db)) productId
  = (λ s, s + (if negb (isCancelled order) && includes statuses "cancelled"
               then credited (Order.items order) productId else 0))
    <$> stockOf (products db) productId.
Proof.
  induction statuses as [|status rest IH]; intros db order productId Hid.
  - simpl. rewrite andb_false_r.
    destruct (stockOf (products db) productId); simpl; [|done]. f_equal. lia.
  - destruct (updateStatus_step id status db order Hid)
      as (order1 & Hid1 & Hitems & Hst1 & Hps).
    change (includes (status :: rest) "cancelled")
      with (String.eqb "cancelled" status || includes rest "cancelled").
    unfold updateStatuses in *. cbn [fold_left].
    rewrite (IH _ order1 productId Hid1), Hps, Hst1, Hitems.
    rewrite (String.eqb_sym "cancelled" status).
    destruct (isCancelled order), (String.eqb status "cancelled"); simpl;
      rewrite ?stockOf_restockItems;
      destruct (stockOf (products db) productId); simpl; try done;
      f_equal; destruct (includes rest "cancelled"); lia.
Qed.

(** The cancellation of the revision with stock reversal restocks once:
    cancelling an order that is not cancelled credits each product with
    the quantities of the order's lines, and no later sequence of status
    updates of that order, further cancellations included, moves any
    stock. *)
Lemma cancel_restocks_once (id : nat) db order statuses productId :
  orders db !! id = Some order →
  isCancelled order = false →
  stockOf (products (OrderRoutes.updateStatus id "cancelled" db).1) productId
  = (λ s, s + credited (Order.items order) productId)
    <$> stockOf (products db) productId
  ∧ stockOf (products (updateStatuses id ("cancelled" :: statuses) db))
      productId
    = stockOf (products (OrderRoutes.updateStatus id "cancelled" db).1)
        productId.
Proof.
  intros Hid Hst.
  assert (stockOf (products (OrderRoutes.updateStatus id "cancelled" db).1)
            productId
          = (λ s, s + credited (Order.items order) productId)
            <$> stockOf (products db) productId) as Hfirst.
  { rewrite (updateStatus_cancel _ _ _ Hid Hst). simpl.
    apply stockOf_restockItems. }
  split; [done|].
  rewrite Hfirst, (updateStatuses_stock _ _ _ order productId Hid), Hst.
  reflexivity.
Qed.

(** ** The revision of [src/backend/routes/orderRoutes.js] *)

Lemma backend_updateStatus_products (id : nat) status db :
  products (BackendOrderRoutes.updateStatus id status db).1 = products db.
Proof.
  unfold BackendOrderRoutes.updateStatus.
  destruct (orders db !! id); [|done]. by destruct (negb _).
Qed.

(** C2, failing input.  [backend/routes/orderRoutes.js] never restocks: a
    status update leaves every product as it was.  Cancelling the pending
    order of 2 A and 1 B stores the order as cancelled and leaves A at
    stock 5, where the revision with stock reversal brings A to 7. *)
Theorem backend_cancel_without_restock :
  (∀ (id : nat) status db productId,
     stockOf (products (BackendOrderRoutes.updateStatus id status db).1)
       productId
     = stockOf (products db) productId)
  ∧ BackendOrderRoutes.updateStatus 0 "cancelled" backOffice
    = (archive, mkResponse 200 (StatusUpdated cancelledOrder))
  ∧ stockOf (products archive) 1%N = Some 5
  ∧ stockOf (products (OrderRoutes.updateStatus 0 "cancelled" backOffice).1)
      1%N = Some 7.
Proof.
  split; [|by vm_compute].
  intros id status db productId. by rewrite backend_updateStatus_products.
Qed.

(** C3, failing input.  [backend/routes/orderRoutes.js] has no guard on
    the current status: a cancelled order is set back to [pending] with a
    200 response, where the revision with stock reversal answers 400
    [InvalidTransition] and keeps the order cancelled. *)
Theorem backend_cancelled_reopened :
  BackendOrderRoutes.updateStatus 0 "pending" archive
  = (backOffice, mkResponse 200 (StatusUpdated pendingOrder))
  ∧ OrderRoutes.updateStatus 0 "pending" archive
    = (archive, mkResponse 400 InvalidTransition).
Proof. by vm_compute. Qed.

(** A placement of the revision with the address check is rejected before
    anything is read or written when the profile carries no usable
    address. *)
Lemma placeOrder_missing_address userId paymentMethod cartItems db user :
  users db !! userId = Some user →
  OrderRoutes.unusableAddress (User.address user) = true →
  OrderRoutes.placeOrder userId paymentMethod cartItems db
  = (db, mkResponse 400 MissingShippingAddress).
Proof.
  intros Huser Haddr. unfold OrderRoutes.placeOrder. by rewrite Huser, Haddr.
Qed.

(** C9, failing input.  [backend/routes/orderRoutes.js] does not look at
    the address before the loop.  For a user whose profile address is the
    placeholder [N/A] it deducts the stock and stores the order with that
    address; for a user whose profile has no address it deducts the stock
    and then fails on the save of the order with a server error.  On both
    requests the revision with the address check answers 400
    [MissingShippingAddress] and touches nothing. *)
Theorem backend_places_without_address :
  (∃ order,
     BackendOrderRoutes.placeOrder 8%N "COD" [CartItem.mk 1%N 1] shopOfBob
     = ({| products := <[1%N := Product.setStock productA 4]> shelf;
           orders := [order];
           users := users shopOfBob |},
        mkResponse 201 (OrderPlaced order))
     ∧ Order.shippingAddress order = "N/A")
  ∧ BackendOrderRoutes.placeOrder 6%N "COD" [CartItem.mk 1%N 1] shopOfBob
    = (withProducts shopOfBob (<[1%N := Product.setStock productA 4]> shelf),
       mkResponse 500 ServerError)
  ∧ OrderRoutes.placeOrder 8%N "COD" [CartItem.mk 1%N 1] shopOfBob
    = (shopOfBob, mkResponse 400 MissingShippingAddress)
  ∧ OrderRoutes.placeOrder 6%N "COD" [CartItem.mk 1%N 1] shopOfBob
    = (shopOfBob, mkResponse 400 MissingShippingAddress).
Proof.
  split; [|by vm_compute]. eexists. split; by vm_compute.
Qed.

(** The scenario of the spec on the revision with stock reversal: the
    order of 2 A and 1 B is cancelled, A goes from 5 to 7 and B from 2 to
    3; a second cancellation changes nothing. *)
Example cancel_scenario :
  stockOf (products (updateStatuses 0 ["cancelled"] backOffice)) 1%N = Some 7
  ∧ stockOf (products (updateStatuses 0 ["cancelled"] backOffice)) 2%N = Some 3
  ∧ updateStatuses 0 ["cancelled"; "cancelled"] backOffice
    = updateStatuses 0 ["cancelled"] backOffice.
Proof. by vm_compute. Qed.

(** ** Interleaved placements *)

Section Interleaved.
Import Interleaving.

Lemma runTask_S n task db :
  runTask (S n) task db = runTask n (step task db).1 (step task db).2.
Proof. reflexivity. Qed.

Lemma runTask_add n : ∀ m task db,
  runTask (n + m) task db
  = runTask m (runTask n task db).1 (runTask n task db).2.
Proof.
  induction n as [|n IH]; intros m task db; [done|].
  rewrite Nat.add_succ_l, !runTask_S. apply IH.
Qed.

Lemma runTask_Done n response db :
  runTask n (Done response) db = (Done response, db).
Proof. induction n as [|n IH]; [done|]. rewrite runTask_S. apply IH. Qed.

Lemma withProducts_id db : withProducts db (products db) = db.
Proof. by destruct db. Qed.

Lemma processItems_cons item rest (ps : gmap N Product.t) acc total :
  processItems (item :: rest) ps acc total
  = match reserve (CartItem.productId item) (CartItem.quantity item) ps with
    | (ps', inl e) => (ps', inl (reserveFailure e))
    | (ps', inr product') =>
        processItems rest ps' (acc ++ [snapshot item product'])
          (Js.add total
             (lineAmount (Product.price product') (CartItem.quantity item)))
    end.
Proof. reflexivity. Qed.

(** The two database operations of a cart line, run back to back, are
    [reserve]. *)
Lemma runTask_line l item rest db :
  match reserve (CartItem.productId item) (CartItem.quantity item)
          (products db) with
  | (ps, inl e) =>
      runTask 1 (FindProduct l item rest) db = (Done (reserveFailure e), db)
      ∧ ps = products db
  | (ps, inr product') =>
      runTask 2 (FindProduct l item rest) db
      = (nextLine (pushLine l item product') rest, withProducts db ps)
  end.
Proof.
  unfold reserve. cbn [runTask step].
  destruct (products db !! CartItem.productId item) as [product|]; [|done].
  by destruct (Product.stock product <? CartItem.quantity item).
Qed.

(** A handler running alone goes through its loop as [processItems]
    does. *)
Lemma runTask_loop rest : ∀ item l db,
  ∃ n,
    runTask n (FindProduct l item rest) db
    = match processItems (item :: rest) (products db)
              (orderProducts l) (totalAmount l) with
      | (ps, inl response) => (Done response, withProducts db ps)
      | (ps, inr (items, total)) =>
          (nextLine
             (mkLocals (userId l) (user l) (paymentMethod l) items total) [],
           withProducts db ps)
      end.
Proof.
  induction rest as [|item' rest' IH]; intros item l db;
    rewrite processItems_cons.
  - pose proof (runTask_line l item [] db) as Hline.
    destruct (reserve _ _ (products db)) as [ps [e|product']].
    + exists 1%nat. destruct Hline as [-> ->]. by rewrite withProducts_id.
    + exists 2%nat. by rewrite Hline.
  - pose proof (runTask_line l item (item' :: rest') db) as Hline.
    destruct (reserve _ _ (products db)) as [ps [e|product']].
    + exists 1%nat. destruct Hline as [-> ->]. by rewrite withProducts_id.
    + destruct (IH item' (pushLine l item product') (withProducts db ps))
        as [n Hn].
      exists (2 + n)%nat. rewrite runTask_add, Hline.
      cbn [fst snd nextLine]. rewrite Hn.
      cbn [withProducts products orders users pushLine orderProducts
           totalAmount userId user paymentMethod].
      reflexivity.
Qed.

(** A handler running alone is [OrderRoutes.placeOrder]: after enough
    database operations it has answered, with the response and the
    database of the sequential route. *)
Lemma runTask_placeOrder userId paymentMethod cartItems db :
  ∃ n, ∀ m,
    runTask (n + m) (FindUser userId paymentMethod cartItems) db
    = (Done (OrderRoutes.placeOrder userId paymentMethod cartItems db).2,
       (OrderRoutes.placeOrder userId paymentMethod cartItems db).1).
Proof.
  unfold OrderRoutes.placeOrder.
  destruct (users db !! userId) as [user|] eqn:Huser.
  2: { exists 1%nat. intros m. rewrite Nat.add_1_l, runTask_S.
       cbn [step]. rewrite Huser. apply runTask_Done. }
  destruct (OrderRoutes.unusableAddress (User.address user)) eqn:Haddr.
  { exists 1%nat. intros m. rewrite Nat.add_1_l, runTask_S.
    cbn [step]. rewrite Huser, Haddr. apply runTask_Done. }
  destruct cartItems as [|item rest].
  { exists 1%nat. intros m. rewrite Nat.add_1_l, runTask_S.
    cbn [step]. rewrite Huser, Haddr. apply runTask_Done. }
  destruct (runTask_loop rest item
              (mkLocals userId user paymentMethod [] Js.zero) db) as [n Hn].
  exists (S (n + 2)). intros m.
  replace (S (n + 2) + m)%nat with (S (n + (2 + m)))%nat by lia.
  rewrite runTask_S. cbn [step]. rewrite Huser, Haddr. cbn [fst snd].
  rewrite runTask_add, Hn.
  cbn [orderProducts totalAmount Interleaving.userId Interleaving.user
       Interleaving.paymentMethod nextLine].
  destruct (processItems (item :: rest) (products db) [] Js.zero)
    as [ps [response|[items total]]]; cbn [fst snd].
  - apply runTask_Done.
  - rewrite Nat.add_succ_l, runTask_S. cbn [step].
    destruct (validOrder _); cbn [fst snd].
    + rewrite Nat.add_succ_l, runTask_S. cbn [step fst snd].
      rewrite runTask_Done. reflexivity.
    + apply runTask_Done.
Qed.

(** Every database operation keeps the stocks and the pending writes
    non-negative. *)
Lemma step_safe task db :
  pendingNonneg task → stocksNonneg db →
  pendingNonneg (step task db).1 ∧ stocksNonneg (step task db).2.
Proof.
  intros Htask Hdb.
  destruct task as [userId pm cart | l item rest | l item product rest
                   | l order | l order | response]; cbn [step].
  - destruct (users db !! userId) as [user|]; [|done].
    destruct (OrderRoutes.unusableAddress _); [done|]. by destruct cart.
  - destruct (products db !! CartItem.productId item) as [product|]; [|done].
    destruct (Z.ltb_spec (Product.stock product) (CartItem.quantity item));
      [done|].
    split; [|done]. simpl. lia.
  - split; [by destruct rest|].
    unfold stocksNonneg. simpl. by apply map_Forall_insert_2.
  - by destruct (validOrder order).
  - done.
  - done.
Qed.

Lemma stepAt_safe i s :
  Forall pendingNonneg (tasks s) → stocksNonneg (db s) →
  Forall pendingNonneg (tasks (stepAt i s)) ∧ stocksNonneg (db (stepAt i s)).
Proof.
  intros Htasks Hdb. unfold stepAt.
  destruct (tasks s !! i) as [task|] eqn:Hi; [|done].
  assert (pendingNonneg task) as Htask
    by (eapply Forall_lookup_1; eauto).
  destruct (step_safe task (db s) Htask Hdb) as [Htask' Hdb'].
  destruct (step task (db s)) as [task' db']. simpl in *.
  split; [|done]. by apply Forall_insert.
Qed.

Lemma schedule_safe sched : ∀ s,
  Forall pendingNonneg (tasks s) → stocksNonneg (db s) →
  Forall pendingNonneg (tasks (schedule sched s))
  ∧ stocksNonneg (db (schedule sched s)).
Proof.
  induction sched as [|i sched IH]; intros s Htasks Hdb; [done|].
  destruct (stepAt_safe i s Htasks Hdb). by apply IH.
Qed.

Lemma initial_pendingNonneg task : initial task → pendingNonneg task.
Proof. by destruct task. Qed.

(** One after the other, two reservations of the same product do not
    both succeed when the stock covers only one of them. *)
Lemma reserve_twice productId q1 q2 (ps ps1 : gmap N Product.t)
    product product1 :
  ps !! productId = Some product →
  Product.stock product < q1 + q2 →
  reserve productId q1 ps = (ps1, inr product1) →
  reserve productId q2 ps1
  = (ps1, inl (Insufficient (Product.name product)
                 (Product.stock product - q1))).
Proof.
  intros Hp Hlt Hres. unfold reserve in Hres. rewrite Hp in Hres.
  destruct (Product.stock product <? q1); [done|].
  injection Hres as <- <-.
  rewrite (reserve_insufficient _ _ _
             (Product.setStock product (Product.stock product - q1)));
    [done | apply lookup_insert_eq | simpl; lia].
Qed.
End Interleaved.

(** C7, counterexample.  Two requests for 6 units of a product with stock
    10 are in flight together, and each reads the product before the other
    has saved it: both see stock 10, both save stock 4, both orders are
    stored and both requests answer 201. *)
Lemma race_both_succeed : ¬ Interleaving.oneSuccessOneFailure race.
Proof.
  intros H. destruct (H interleaved) as [Hone _].
  - vm_compute. repeat constructor.
  - vm_compute in Hone. discriminate Hone.
Qed.

(** C7, amended.  Placements that run one after the other never both
    reserve a product whose stock covers only one of them: the second
    fails with insufficient stock, reporting what the first left (6 and 6
    against stock 10: one 201, one insufficient stock with 4 available).
    Placements whose database reads and writes interleave can both
    succeed (6 and 6 against stock 10: two orders stored, stock 4).  In
    every interleaving of any number of placements, started on
    non-negative stocks, the stocks stay non-negative. *)
Theorem interleaved_placements :
  (∀ start sched,
     Forall Interleaving.initial (Interleaving.tasks start) →
     stocksNonneg (Interleaving.db start) →
     stocksNonneg (Interleaving.db (Interleaving.schedule sched start)))
  ∧ (∀ productId q1 q2 (ps ps1 : gmap N Product.t) product product1,
       ps !! productId = Some product →
       Product.stock product < q1 + q2 →
       reserve productId q1 ps = (ps1, inr product1) →
       reserve productId q2 ps1
       = (ps1, inl (Insufficient (Product.name product)
                      (Product.stock product - q1))))
  ∧ (Interleaving.succeeded
       <$> Interleaving.tasks (Interleaving.schedule backToBack race)
     = [true; false]
     ∧ (Interleaving.tasks (Interleaving.schedule backToBack race)) !! 1%nat
       = Some (Interleaving.Done
                 (mkResponse 400 (InsufficientStock "D" 4))))
  ∧ (Interleaving.succeeded
       <$> Interleaving.tasks (Interleaving.schedule interleaved race)
     = [true; true]
     ∧ stockOf (products (Interleaving.db
                            (Interleaving.schedule interleaved race))) 4%N
       = Some 4).
Proof.
  split; [|split; [|split; by vm_compute]].
  - intros start sched Hinit Hdb.
    apply schedule_safe; [|done].
    eapply Forall_impl; [exact Hinit | exact initial_pendingNonneg].
  - intros. by eapply reserve_twice.
Qed.

Lemma stocksNonneg_stockroom : stocksNonneg stockroom.
Proof.
  unfold stocksNonneg, stockroom. simpl.
  apply map_Forall_singleton. simpl. lia.
Defined.

Lemma interleaved_placements_witness :
  stocksNonneg (Interleaving.db (Interleaving.schedule interleaved race)).
Proof.
  apply (proj1 interleaved_placements race interleaved).
  - repeat constructor.
  - exact stocksNonneg_stockroom.
Defined.

(** * Further properties of the order routes *)

(** ** What a placement and a cancellation leave alone *)

Lemma reserve_catalogue productId quantity (ps : gmap N Product.t) other :
  catalogue (reserve productId quantity ps).1 other = catalogue ps other.
Proof.
  unfold reserve, catalogue.
  destruct (ps !! productId) as [product|] eqn:Hp; [|done].
  destruct (Product.stock product <? quantity); [done|]. simpl.
  destruct (decide (productId = other)) as [<-|Hne].
  - by rewrite lookup_insert_eq, Hp.
  - by rewrite lookup_insert_ne.
Qed.

Lemma processItems_catalogue cartItems : ∀ (ps : gmap N Product.t) acc total other,
  catalogue (processItems cartItems ps acc total).1 other = catalogue ps other.
Proof.
  induction cartItems as [|item rest IH]; intros ps acc total other; [done|].
  simpl.
  pose proof (reserve_catalogue (CartItem.productId item)
                (CartItem.quantity item) ps other) as Hres.
  destruct (reserve _ _ ps) as [ps1 [e|product']]; [done|].
  by rewrite IH.
Qed.

Lemma restock_catalogue productId quantity (ps : gmap N Product.t) other :
  catalogue (restock productId quantity ps) other = catalogue ps other.
Proof.
  unfold restock, catalogue.
  destruct (ps !! productId) as [product|] eqn:Hp; [|done].
  destruct (decide (productId = other)) as [<-|Hne].
  - by rewrite lookup_insert_eq, Hp.
  - by rewrite lookup_insert_ne.
Qed.

Lemma restockItems_catalogue items : ∀ (ps : gmap N Product.t) other,
  catalogue (restockItems items ps) other = catalogue ps other.
Proof.
  induction items as [|item rest IH]; intros ps other; [done|].
  simpl. unfold restockItems in IH. by rewrite IH, restock_catalogue.
Qed.

(** The products a placement leaves are those of the database or those of
    its loop. *)
Lemma placeOrder_products (place : list CartItem.t → Db → Db * Response)
    userId paymentMethod cartItems db :
  place = OrderRoutes.placeOrder userId paymentMethod
  ∨ place = BackendOrderRoutes.placeOrder userId paymentMethod →
  products (place cartItems db).1 = products db
  ∨ products (place cartItems db).1
    = (processItems cartItems (products db) [] Js.zero).1.
Proof.
  intros [-> | ->];
    unfold OrderRoutes.placeOrder, BackendOrderRoutes.placeOrder;
    (destruct (users db !! userId); [|by left]);
    [destruct (OrderRoutes.unusableAddress _); [by left|] |];
    (destruct cartItems; [by left|]);
    (destruct (processItems _ _ _ _) as [ps [r|[items total]]];
     [by right|]);
    destruct (validOrder _); by right.
Qed.

Lemma apply_catalogue op db productId :
  coreOp op →
  catalogue (products (apply db op)) productId
  = catalogue (products db) productId.
Proof.
  intros Hcore.
  assert (Hplace : ∀ place userId paymentMethod cartItems,
    place = OrderRoutes.placeOrder userId paymentMethod
    ∨ place = BackendOrderRoutes.placeOrder userId paymentMethod →
    catalogue (products (place cartItems db).1) productId
    = catalogue (products db) productId).
  { intros place userId paymentMethod cartItems Hp.
    destruct (placeOrder_products place userId paymentMethod cartItems db Hp)
      as [-> | ->]; [done | apply processItems_catalogue]. }
  destruct op as [userId pm cart | id status | userId pm cart | id status
                 | pid name price image stock]; simpl; [| | | |done].
  - apply (Hplace _ userId pm). by left.
  - unfold OrderRoutes.updateStatus.
    destruct (orders db !! id) as [order|]; [|done].
    destruct (negb _); [done|].
    destruct (_ && _); [apply restockItems_catalogue|].
    by destruct (_ && _).
  - apply (Hplace _ userId pm). by right.
  - by rewrite backend_updateStatus_products.
Qed.

(** X1.  Along any sequence of placements and status updates, of either
    revision, no product is created or deleted and no product changes its
    name, price or image: only stocks move. *)
Theorem orders_never_touch_catalogue (ops : list Op) (db : Db)
    (productId : ObjectId) :
  Forall coreOp ops →
  catalogue (products (run ops db)) productId
  = catalogue (products db) productId.
Proof.
  revert db. induction ops as [|op ops IH]; intros db Hcore; [done|].
  apply Forall_cons in Hcore as [Hop Hcore].
  simpl. unfold run in IH. rewrite IH by done. by apply apply_catalogue.
Qed.

Lemma orders_never_touch_catalogue_witness :
  catalogue (products (run sampleOps shop)) 1%N
  = Some ("A"%string, Js.ofZ 10, "a.png"%string).
Proof.
  rewrite (orders_never_touch_catalogue sampleOps shop 1%N).
  - reflexivity.
  - repeat constructor.
Defined.

(** ** A placed order accounts for the stock it took *)





(** ** A cancelled order stays as it is *)

Lemma reversal_keeps_cancelled op db (id : nat) order :
  reversalOp op →
  orders db !! id = Some order →
  isCancelled order = true →
  orders (apply db op) !! id = Some order.
Proof.
  intros Hop Hid Hst.
  destruct op as [userId pm cart | id' status | | |]; try done; simpl.
  - destruct (placeOrder_orders _ userId pm cart db (or_introl eq_refl))
      as [[-> _] | (ps & items & total & user & _ & _ & _ & _ & -> & _)];
      [done|].
    by rewrite lookup_app_l by (by eapply lookup_lt_Some).
  - destruct (decide (id' = id)) as [->|Hne].
    + destruct (String.eqb_spec status "cancelled") as [->|Hs].
      * by rewrite (updateStatus_cancel_again _ _ _ Hid Hst).
      * by rewrite (updateStatus_cancelled_terminal _ _ _ _ Hid Hst Hs).
    + unfold OrderRoutes.updateStatus.
      destruct (orders db !! id') as [other|]; [|done].
      destruct (negb _); [done|].
      destruct (_ && _); simpl; [by rewrite list_lookup_insert_ne|].
      destruct (_ && _); simpl; [done|]. by rewrite list_lookup_insert_ne.
Qed.

(** X4.  Once an order is cancelled, no sequence of placements and status
    updates of the revision with stock reversal changes it: it stays
    stored under its id, cancelled, with the same lines and total. *)
Theorem cancelled_is_final (ops : list Op) (db : Db) (id : nat)
    (order : Order.t) :
  Forall reversalOp ops →
  orders db !! id = Some order →
  isCancelled order = true →
  orders (run ops db) !! id = Some order.
Proof.
  revert db. induction ops as [|op ops IH]; intros db Hops Hid Hst; [done|].
  apply Forall_cons in Hops as [Hop Hops].
  simpl. apply IH; [done| |done]. by apply reversal_keeps_cancelled.
Qed.

Lemma cancelled_is_final_witness :
  orders (run [UpdateStatus 0 "shipped"; UpdateStatus 0 "cancelled";
               PlaceOrder 7%N "COD" [CartItem.mk 1%N 1]] archive) !! 0%nat
  = Some cancelledOrder.
Proof.
  apply (cancelled_is_final _ archive 0 cancelledOrder).
  - repeat constructor.
  - reflexivity.
  - reflexivity.
Defined.

(** ** The orders a user sees *)

(** X5.  When a placement answers 201, in either revision, the new order
    heads the caller's list of orders, the rest of that list is as before,
    and the list of every other user is unchanged. *)
Theorem placed_order_is_listed_first
    (place : list CartItem.t → Db → Db * Response)
    (userId : ObjectId) (paymentMethod : string)
    (cartItems : list CartItem.t) (db db' : Db) (order : Order.t) :
  place = OrderRoutes.placeOrder userId paymentMethod
  ∨ place = BackendOrderRoutes.placeOrder userId paymentMethod →
  place cartItems db = (db', mkResponse 201 (OrderPlaced order)) →
  listOrders userId db' = order :: listOrders userId db
  ∧ ∀ other, other ≠ userId → listOrders other db' = listOrders other db.
Proof.
  intros Hplace Hplaced.
  destruct (placeOrder_orders place userId paymentMethod cartItems db Hplace)
    as [[_ Hne] | (ps & items & total & user & _ & _ & _ & _ & Horders & Hresp)].
  { rewrite Hplaced in Hne. by destruct (Hne order). }
  rewrite Hplaced in Horders, Hresp. simpl in Horders, Hresp.
  injection Hresp as Horder.
  assert (Order.userId order = userId) as Huser by (by rewrite Horder).
  unfold listOrders. rewrite Horders, <- Horder, filter_app, reverse_app.
  split.
  - rewrite filter_cons_True by done. done.
  - intros other Hne.
    rewrite filter_app, filter_cons_False by congruence.
    by rewrite filter_nil, app_nil_r.
Qed.

Lemma placed_order_is_listed_first_witness :
  listOrders 7%N (OrderRoutes.placeOrder 7%N "COD"
                    [CartItem.mk 3%N 1] cornerShop).1
  = orderOfC :: listOrders 7%N cornerShop.
Proof.
  apply (placed_order_is_listed_first (OrderRoutes.placeOrder 7%N "COD")
           7%N "COD" [CartItem.mk 3%N 1] cornerShop
           (OrderRoutes.placeOrder 7%N "COD" [CartItem.mk 3%N 1] cornerShop).1
           orderOfC).
  - by left.
  - by vm_compute.
Defined.

(** * The order of the routes in the combined routes file *)


(** * The cart collection *)

Lemma filter_all {A} (P : A → Prop) `{∀ x, Decision (P x)} (l : list A) :
  Forall P l → filter P l = l.
Proof.
  induction 1 as [|x l Hx Hl IH]; [done|].
  by rewrite filter_cons_True, IH.
Qed.

Lemma sameProduct_id segment productId :
  sameProduct segment productId = true → segment = IdSegment productId.
Proof.
  destruct segment as [id|id|word]; simpl; [|done..].
  intros H. apply N.eqb_eq in H. by subst.
Qed.

Lemma findIndex_Some segment items : ∀ i item,
  findIndex segment items = Some (i, item) →
  items !! i = Some item ∧ segment = IdSegment (CartLine.productId item).
Proof.
  induction items as [|line rest IH]; intros i item H; simpl in H; [done|].
  destruct (sameProduct segment (CartLine.productId line)) eqn:Hsame.
  - injection H as <- <-. split; [done|]. by apply sameProduct_id.
  - destruct (findIndex segment rest) as [[j item']|]; [|done].
    simpl in H. injection H as <- <-. by apply IH.
Qed.

Lemma findIndex_None segment items :
  findIndex segment items = None →
  Forall (λ item, sameProduct segment (CartLine.productId item) = false) items.
Proof.
  induction items as [|line rest IH]; intros H; simpl in H; [done|].
  destruct (sameProduct segment (CartLine.productId line)) eqn:Hsame; [done|].
  destruct (findIndex segment rest) as [[j item']|]; [done|].
  constructor; [done | by apply IH].
Qed.

Lemma findIndex_is_Some id items :
  id ∈ (CartLine.productId <$> items) →
  is_Some (findIndex (IdSegment id) items).
Proof.
  intros Hin. destruct (findIndex _ _) eqn:Hfind; [done|].
  apply findIndex_None in Hfind.
  apply list_elem_of_fmap in Hin as (item & -> & Hin).
  eapply Forall_forall in Hfind; [|exact Hin].
  simpl in Hfind. by rewrite N.eqb_refl in Hfind.
Qed.

(** ** The order of the routes *)

(** X13.  For a user who has a cart, [DELETE /clear] is served in
    [backend/routes/cartRoutes.js] by the route [/:productId], registered
    first: it answers 404 and the cart keeps its lines.  In the revision
    of [part_004], where [/clear] is registered first, it empties the
    cart. *)
Theorem clear_route_order (userId : ObjectId)
    (carts : gmap N (list CartLine.t)) (items : list CartLine.t) :
  carts !! userId = Some items →
  serveDelete BackendCartRoutes.deleteRoutes userId (WordSegment "clear") carts
  = Some (carts, cartRespond 404 CartItemNotFound)
  ∧ serveDelete CartRoutes.deleteRoutes userId (WordSegment "clear") carts
    = Some (<[userId := []]> carts, cartRespond 200 CartCleared).
Proof.
  intros Hcart. unfold serveDelete. simpl.
  unfold BackendCartRoutes.removeItem, clearItems. rewrite Hcart.
  split; [|done].
  rewrite filter_all, Nat.eqb_refl; [done|]. by apply Forall_forall.
Qed.

Lemma clear_route_order_witness :
  serveDelete BackendCartRoutes.deleteRoutes 5%N (WordSegment "clear") basket
  = Some (basket, cartRespond 404 CartItemNotFound)
  ∧ serveDelete CartRoutes.deleteRoutes 5%N (WordSegment "clear") basket
    = Some (<[5%N := []]> basket, cartRespond 200 CartCleared).
Proof.
  apply (clear_route_order 5%N basket [cartLine productA 1%N 2]).
  reflexivity.
Defined.

(** ** Removing a line by quantity *)

Lemma delete_found_is_filter id items : ∀ i item,
  NoDup (CartLine.productId <$> items) →
  findIndex (IdSegment id) items = Some (i, item) →
  delete i items
  = filter (λ line, sameProduct (IdSegment id) (CartLine.productId line) = false)
      items.
Proof.
  induction items as [|line rest IH]; intros i item Hnodup Hfind;
    simpl in Hfind; [done|].
  rewrite fmap_cons in Hnodup. apply NoDup_cons in Hnodup as [Hnotin Hnodup].
  destruct (N.eqb_spec (CartLine.productId line) id) as [Hid|Hid].
  - injection Hfind as <- <-. rewrite filter_cons_False.
    2: { simpl. rewrite Hid, N.eqb_refl. done. }
    simpl. symmetry. apply filter_all, Forall_forall. intros line' Hin.
    simpl. apply N.eqb_neq. intros Heq. apply Hnotin.
    apply list_elem_of_fmap. exists line'. split; [congruence | done].
  - destruct (findIndex (IdSegment id) rest) as [[j item']|] eqn:Hrest;
      [|done].
    simpl in Hfind. injection Hfind as <- <-.
    rewrite filter_cons_True by (simpl; by apply N.eqb_neq).
    simpl. f_equal. by eapply IH.
Qed.

(** X15.  In [backend/routes/cartRoutes.js], on a cart with one line per
    product, setting the quantity of a product in the cart to 0 or less
    with [PUT /:productId] leaves the carts that [DELETE /:productId]
    leaves, when the id is written as the cart holds it.  When the lines
    left pass the schema both answer 200, the one with the cart, the
    other with a message and the cart, and the cart then holds the other
    lines and no line for the product. *)
Theorem backend_update_to_zero_removes (userId id : ObjectId) (quantity : Z)
    (carts : gmap N (list CartLine.t)) (items : list CartLine.t) :
  carts !! userId = Some items →
  NoDup (CartLine.productId <$> items) →
  id ∈ (CartLine.productId <$> items) →
  quantity ≤ 0 →
  (BackendCartRoutes.updateItem userId (IdSegment id) quantity carts).1
  = (BackendCartRoutes.removeItem userId (IdSegment id) carts).1
  ∧ (validCart items = true →
     ∃ items',
       BackendCartRoutes.updateItem userId (IdSegment id) quantity carts
       = (<[userId := items']> carts, cartRespond 200 (CartOf items'))
       ∧ BackendCartRoutes.removeItem userId (IdSegment id) carts
         = (<[userId := items']> carts, cartRespond 200 (ItemRemoved items'))
       ∧ items' = filter (λ line, CartLine.productId line ≠ id) items
       ∧ id ∉ (CartLine.productId <$> items')).
Proof.
  intros Hcart Hnodup Hin Hq.
  destruct (findIndex_is_Some _ _ Hin) as [[i item] Hfind].
  pose proof (delete_found_is_filter _ _ _ _ Hnodup Hfind) as Hdelete.
  pose proof (findIndex_Some _ _ _ _ Hfind) as [Hi _].
  assert (length (delete i items) < length items)%nat as Hlt.
  { rewrite length_delete by done.
    apply lookup_lt_Some in Hi. lia. }
  assert (filter (λ line,
            sameProduct (IdSegment id) (CartLine.productId line) = false) items
          = filter (λ line, CartLine.productId line ≠ id) items) as Hfilter.
  { apply list_filter_iff. intros line. simpl. by rewrite N.eqb_neq. }
  unfold BackendCartRoutes.updateItem, BackendCartRoutes.removeItem.
  rewrite Hcart, Hfind. apply Z.leb_le in Hq as ->.
  rewrite <- Hdelete.
  apply Nat.lt_neq, Nat.eqb_neq in Hlt as ->.
  split; [by destruct (validCart _)|]. intros Hvalid.
  assert (validCart (delete i items) = true) as ->.
  { unfold validCart in *. apply forallb_forall. intros line Hline.
    rewrite forallb_forall in Hvalid. apply Hvalid.
    apply list_elem_of_In. apply list_elem_of_In in Hline.
    eapply elem_of_sublist; [exact Hline | apply sublist_delete]. }
  exists (delete i items). split; [done|]. split; [done|].
  split; [by rewrite Hdelete|].
  rewrite Hdelete, Hfilter. intros Hleft.
  apply list_elem_of_fmap in Hleft as (line & Hid & Hline).
  apply list_elem_of_filter in Hline as [Hkeep _]. done.
Qed.

Lemma backend_update_to_zero_removes_witness :
  (BackendCartRoutes.updateItem 5%N (IdSegment 1%N) 0 basket).1
  = (BackendCartRoutes.removeItem 5%N (IdSegment 1%N) basket).1.
Proof.
  refine (proj1 (backend_update_to_zero_removes 5%N 1%N 0 basket
                   [cartLine productA 1%N 2] eq_refl _ _ _)).
  - simpl. apply NoDup_singleton.
  - simpl. apply list_elem_of_here.
  - lia.
Defined.

(** * Authentication middleware and user administration *)

Section MiddlewareProperties.
Variable verify : option string → string → Verified.
Variable emailMatches : string → bool.

(** The one effect of [protect]. *)
Lemma protect_once (authorization : option string)
    (secret : string) (accounts : gmap N Account.t) :
  ∃ effect,
    protect verify authorization secret accounts = [effect]
    ∧ match effect with
      | Respond code _ => code = 401
      | Next id user =>
          ∃ header segment actor account,
            authorization = Some header
            ∧ String.prefix "Bearer" header = true
            ∧ secret ≠ ""%string
            ∧ verify (bearerToken header) secret = Decoded id
            ∧ id = Some segment
            ∧ castId segment = Some actor
            ∧ accounts !! actor = Some account
            ∧ user = Some (Profile.ofAccount actor account)
      end.
Proof.
  unfold protect.
  destruct authorization as [header|]; [|by eexists].
  destruct (String.prefix "Bearer" header) eqn:Hprefix; [|by eexists].
  destruct (String.eqb_spec secret "") as [|Hsecret]; [by eexists|].
  destruct (verify (bearerToken header) secret) as [id| | |] eqn:Hverify;
    try by eexists.
  destruct id as [segment|]; simpl; [|by eexists].
  destruct (castId segment) as [actor|] eqn:Hcast; [|by eexists].
  destruct (accounts !! actor) as [account|] eqn:Hactor; [|by eexists].
  eexists. split; [done|]. by exists header, segment, actor, account.
Qed.

(** X16.  [protect] of [authMiddleware.js] does exactly one thing with a
    request: it answers 401, or it hands the request on.  It hands on
    only a request whose [Authorization] header starts with [Bearer] and
    carries a token that [jwt.verify] accepts under a secret that is set,
    and whose payload names a stored account; [req.user] is then that
    account without its password. *)
Theorem protect_answers_once (authorization : option string)
    (secret : string) (accounts : gmap N Account.t) :
  ∃ effect,
    protect verify authorization secret accounts = [effect]
    ∧ match effect with
      | Respond code _ => code = 401
      | Next id user =>
          ∃ header segment actor account,
            authorization = Some header
            ∧ String.prefix "Bearer" header = true
            ∧ secret ≠ ""%string
            ∧ verify (bearerToken header) secret = Decoded id
            ∧ id = Some segment
            ∧ castId segment = Some actor
            ∧ accounts !! actor = Some account
            ∧ user = Some (Profile.ofAccount actor account)
      end.
Proof.
  unfold protect.
  destruct authorization as [header|]; [|by eexists].
  destruct (String.prefix "Bearer" header) eqn:Hprefix; [|by eexists].
  destruct (String.eqb_spec secret "") as [|Hsecret]; [by eexists|].
  destruct (verify (bearerToken header) secret) as [id| | |] eqn:Hverify;
    try by eexists.
  destruct id as [segment|]; simpl; [|by eexists].
  destruct (castId segment) as [actor|] eqn:Hcast; [|by eexists].
  destruct (accounts !! actor) as [account|] eqn:Hactor; [|by eexists].
  eexists. split; [done|]. by exists header, segment, actor, account.
Qed.

Lemma includes_admin role :
  includes ["admin"]%string role = true → role = "admin"%string.
Proof.
  unfold includes. simpl. rewrite orb_false_r. apply String.eqb_eq.
Qed.

(** A request either leaves the accounts as they are, or carries the
    token of a stored administrator who is still stored, unchanged,
    afterwards. *)
Lemma serveAdmin_keeps_actor authorization secret request
    (accounts : gmap N Account.t) :
  (serveAdmin verify emailMatches authorization secret request accounts).1
  = accounts
  ∨ ∃ header segment actor user,
      authorization = Some header
      ∧ verify (bearerToken header) secret = Decoded (Some segment)
      ∧ castId segment = Some actor
      ∧ accounts !! actor = Some user
      ∧ Account.role user = "admin"%string
      ∧ (serveAdmin verify emailMatches authorization secret request
           accounts).1 !! actor = Some user.
Proof.
  unfold serveAdmin.
  destruct (protect_once authorization secret accounts)
    as (effect & -> & Heffect).
  destruct effect as [code message|id user]; [by left|].
  destruct Heffect
    as (header & segment & actor & account & -> & _ & _ & Hverify & ->
        & Hcast & Hactor & ->).
  cbn [authorize Profile.role Profile.ofAccount Profile.id].
  destruct (includes ["admin"]%string (Account.role account)) eqn:Hadmin;
    [|by left].
  apply includes_admin in Hadmin.
  destruct request as [target role|target].
  - unfold updateUserRole. destruct (negb _); [by left|].
    destruct (castId target) as [id|]; [|by left].
    destruct (accounts !! id) as [user|]; [|by left].
    destruct (N.eqb_spec id actor) as [->|Hne]; [by left|].
    destruct (validAccount _ _); [|by left].
    right. exists header, segment, actor, account. simpl.
    by rewrite lookup_insert_ne.
  - unfold deleteUser. destruct (castId target) as [id|]; [|by left].
    destruct (accounts !! id) as [user|]; [|by left].
    destruct (N.eqb_spec id actor) as [->|Hne]; [by left|].
    right. exists header, segment, actor, account. simpl.
    by rewrite lookup_delete_ne.
Qed.

(** X17.  Only a stored administrator changes the accounts: when a
    request to the role or delete route leaves the accounts different,
    the token of its [Authorization] header is one that [jwt.verify]
    accepts and whose payload names a stored account with the role
    [admin], and that account is the same afterwards: no administrator
    demotes or deletes the account the request comes from. *)
Theorem only_admins_change_accounts (authorization : option string)
    (secret : string) (request : AdminRequest)
    (accounts : gmap N Account.t) :
  (serveAdmin verify emailMatches authorization secret request accounts).1
  ≠ accounts →
  ∃ header segment actor user,
    authorization = Some header
    ∧ verify (bearerToken header) secret = Decoded (Some segment)
    ∧ castId segment = Some actor
    ∧ accounts !! actor = Some user
    ∧ Account.role user = "admin"%string
    ∧ (serveAdmin verify emailMatches authorization secret request
         accounts).1 !! actor = Some user.
Proof.
  intros Hchanged.
  by destruct (serveAdmin_keeps_actor authorization secret request accounts).
Qed.

(** X18.  Along any sequence of requests to the role and delete routes,
    whatever their tokens, accounts that hold an administrator keep
    holding one. *)
Theorem an_admin_remains (secret : string)
    (requests : list (option string * AdminRequest))
    (accounts : gmap N Account.t) :
  hasAdmin accounts →
  hasAdmin (serveAdminAll verify emailMatches secret requests accounts).
Proof.
  revert accounts.
  induction requests as [|[authorization request] requests IH];
    intros accounts Hadmin; [done|].
  simpl. apply IH.
  destruct (serveAdmin_keeps_actor authorization secret request accounts)
    as [-> | (_ & _ & actor & user & _ & _ & _ & _ & Hrole & Hafter)];
    [done|].
  by exists actor, user.
Qed.

(** X19.  [protect] of [middleware/auth.js] answers a request twice when
    the header starts with [Bearer] but carries no token and the
    verification fails: once from the [catch], once from the test of the
    token after it. *)
Theorem auth_js_answers_twice (header secret : string)
    (accounts : gmap N Account.t) :
  String.prefix "Bearer" header = true →
  noToken (bearerToken header) = true →
  (∀ id, verify (bearerToken header) secret ≠ Decoded id) →
  protectAuth verify (Some header) secret accounts
  = [Respond 401 TokenFailed; Respond 401 NoTokenProvided].
Proof.
  intros Hprefix Htoken Hfails. unfold protectAuth.
  rewrite Hprefix, Htoken.
  destruct (verify (bearerToken header) secret) as [id| | |] eqn:Hverify;
    [by destruct (Hfails id) | done..].
Qed.

(** X20.  [protect] of [middleware/auth.js] hands a request on without a
    user when the token is valid but the account it names is no longer
    stored; [protect] of [authMiddleware.js] answers 401 to the same
    request. *)
Theorem auth_js_hands_on_without_user (header secret : string) (id : ObjectId)
    (accounts : gmap N Account.t) :
  String.prefix "Bearer" header = true →
  noToken (bearerToken header) = false →
  secret ≠ ""%string →
  verify (bearerToken header) secret = Decoded (Some (IdSegment id)) →
  accounts !! id = None →
  protectAuth verify (Some header) secret accounts
  = [Next (Some (IdSegment id)) None]
  ∧ protect verify (Some header) secret accounts
    = [Respond 401 UserNotFoundTokenInvalid].
Proof.
  intros Hprefix Htoken Hsecret Hverify Hgone.
  unfold protectAuth, protect.
  rewrite Hprefix, Htoken, Hverify. simpl. rewrite Hgone.
  apply String.eqb_neq in Hsecret as ->. done.
Qed.

End MiddlewareProperties.

Lemma only_admins_change_accounts_witness :
  ∃ header segment actor user,
    Some "Bearer good"%string = Some header
    ∧ sampleVerify (bearerToken header) "s3cret" = Decoded (Some segment)
    ∧ castId segment = Some actor
    ∧ (<[3%N := Account.setRole root "user"]> staff) !! actor = Some user
    ∧ Account.role user = "admin"%string
    ∧ (serveAdmin sampleVerify (λ _, true) (Some "Bearer good"%string)
         "s3cret" (DeleteUser (OtherIdSegment 3%N))
         (<[3%N := Account.setRole root "user"]> staff)).1 !! actor
      = Some user.
Proof.
  apply (only_admins_change_accounts sampleVerify (λ _, true)
           (Some "Bearer good"%string) "s3cret"
           (DeleteUser (OtherIdSegment 3%N))
           (<[3%N := Account.setRole root "user"]> staff)).
  vm_compute. intros Heq. discriminate Heq.
Defined.

Lemma hasAdmin_staff : hasAdmin staff.
Proof. exists 1%N, root. split; reflexivity. Defined.

Lemma an_admin_remains_witness :
  hasAdmin
    (serveAdminAll sampleVerify (λ _, true) "s3cret"
       [ (Some "Bearer good"%string, SetRole (IdSegment 1%N) "user");
         (Some "Bearer good"%string, DeleteUser (OtherIdSegment 1%N));
         (None, DeleteUser (IdSegment 1%N)) ] staff).
Proof.
  apply (an_admin_remains sampleVerify (λ _, true)). exact hasAdmin_staff.
Defined.

Lemma auth_js_answers_twice_witness :
  protectAuth sampleVerify (Some "Bearer"%string) "s3cret" staff
  = [Respond 401 TokenFailed; Respond 401 NoTokenProvided].
Proof.
  apply (auth_js_answers_twice sampleVerify "Bearer" "s3cret" staff).
  - reflexivity.
  - reflexivity.
  - intros id. discriminate.
Defined.

Lemma auth_js_hands_on_without_user_witness :
  protectAuth sampleVerify (Some "Bearer gone"%string) "s3cret" staff
  = [Next (Some (IdSegment 2%N)) None]
  ∧ protect sampleVerify (Some "Bearer gone"%string) "s3cret" staff
    = [Respond 401 UserNotFoundTokenInvalid].
Proof.
  apply (auth_js_hands_on_without_user sampleVerify "Bearer gone" "s3cret"
           2%N staff).
  - reflexivity.
  - reflexivity.
  - discriminate.
  - reflexivity.
  - reflexivity.
Defined.
